(** * merge-docs-index: the doccarchive index merger

    A shallow embedding of [scripts/merge-docs-index.py] and the properties
    of its single function [main].

    The script reads two JSON index documents, appends the identifiers of
    the second to the first (skipping those already present), hangs the
    top-level navigator nodes of the second under the root node of the
    first, writes the first document back and prints two summary lines.

    Modelling choices.
    - A loaded document is a [json] tree.  Objects are association lists:
      a Python dict keeps insertion order, and [d[k] = v] either replaces
      the value of an existing key in place or appends a new key.
    - JSON numbers are integers; float literals are outside the model.
    - Python's dynamic typing is kept: every primitive the script calls
      ([.get], [in], [.append], [.extend], subscripts, [len], truth
      testing) is defined on all of [json] and raises the exception the
      interpreter raises on a receiver of the wrong type.
    - [json.load] builds a tree without sharing, and the two documents are
      loaded separately.  The script mutates the first one through the
      references [archive_ids], [root] and [children]; in a tree without
      sharing a mutation through a reference is an update at the position
      the reference was read from, and that is how the model writes it.
      Nothing is mutated after the secondary's nodes have been appended, so
      the sharing that [extend] creates between the two documents is never
      observed.
    - The file system is a finite map from paths to contents; the process
      leaves a chronological trace of the files it opens and the lines it
      prints.  Opening an existing path for writing and serialising a
      loaded document are taken to succeed.  The JSON codec and [str()] of
      the host runtime are not part of the script and are section
      variables.
    - What [main] below leaves out.  A str is a sequence of one-byte
      characters, so [len] and iteration of a str agree with Python on
      ASCII text only.  A read fails with [FileNotFoundError] or
      [JSONDecodeError]; other ways for a read to fail are folded into the
      second.  [print] always succeeds and the exit status is taken after
      a successful flush of standard output.  [main] takes a path as the
      name of a file; [main_at] is the same function over a file system in
      which several paths can name one file, and is used wherever a
      statement compares files named by different paths. *)

From stdpp Require Import base strings list gmap pretty.
From Stdlib Require Import ZArith Lia.

Local Open Scope string_scope.
Local Open Scope list_scope.
Local Set Warnings "-register-all,-clear-no-such-hyp".

(** ** JSON values as Python objects *)

Inductive json : Type :=
| JNull
| JBool (b : bool)
| JInt (n : Z)
| JStr (s : string)
| JArr (l : list json)
| JObj (m : list (string * json)).

(** Exceptions the script can raise. *)
Inductive exn : Type :=
| SystemExit (code : Z)
| FileNotFoundError
| JSONDecodeError
| AttributeError
| TypeError
| KeyError
| IndexError.

Inductive result (A : Type) : Type :=
| Ok (a : A)
| Raise (e : exn).
Arguments Ok {A} a.
Arguments Raise {A} e.

#[global] Instance result_ret : MRet result := fun _ a => Ok a.
#[global] Instance result_bind : MBind result := fun _ _ k r =>
  match r with
  | Ok a => k a
  | Raise e => Raise e
  end.

(** ** Dict primitives *)

Fixpoint assoc_get (k : string) (m : list (string * json)) : option json :=
  match m with
  | [] => None
  | (k', v) :: m' => if String.eqb k k' then Some v else assoc_get k m'
  end.

(** [d[k] = v] on a dict: an existing key keeps its position. *)
Fixpoint assoc_set (k : string) (v : json) (m : list (string * json))
  : list (string * json) :=
  match m with
  | [] => [(k, v)]
  | (k', v') :: m' =>
      if String.eqb k k' then (k, v) :: m' else (k', v') :: assoc_set k v m'
  end.

(** [d.get(k, default)] *)
Definition dict_get (d : json) (k : string) (default : json) : result json :=
  match d with
  | JObj m => Ok (match assoc_get k m with Some v => v | None => default end)
  | _ => Raise AttributeError
  end.

(** [d[k] = v] *)
Definition dict_setitem (d : json) (k : string) (v : json) : result json :=
  match d with
  | JObj m => Ok (JObj (assoc_set k v m))
  | _ => Raise TypeError
  end.

(** ** Equality, membership, iteration *)

(** Python's [==] on loaded values: [True == 1], lists are compared
    element by element, dicts as sets of items. *)
Fixpoint py_eq (a b : json) {struct a} : bool :=
  match a, b with
  | JNull, JNull => true
  | JBool x, JBool y => Bool.eqb x y
  | JBool x, JInt n => Z.eqb (Z.b2z x) n
  | JInt n, JBool y => Z.eqb n (Z.b2z y)
  | JInt n, JInt m => Z.eqb n m
  | JStr s, JStr t => String.eqb s t
  | JArr l, JArr r =>
      (fix all2 (l : list json) (r : list json) {struct l} : bool :=
         match l, r with
         | [], [] => true
         | x :: l', y :: r' => py_eq x y && all2 l' r'
         | _, _ => false
         end) l r
  | JObj m, JObj n =>
      Nat.eqb (length m) (length n) &&
      (fix items (m : list (string * json)) {struct m} : bool :=
         match m with
         | [] => true
         | (k, v) :: m' =>
             match assoc_get k n with
             | Some w => py_eq v w
             | None => false
             end && items m'
         end) m
  | _, _ => false
  end.

(** A str is a sequence of one-character strs. *)
Fixpoint chars (s : string) : list json :=
  match s with
  | EmptyString => []
  | String c s' => JStr (String c EmptyString) :: chars s'
  end.

Fixpoint is_substring (t s : string) : bool :=
  String.prefix t s ||
  match s with
  | EmptyString => false
  | String _ s' => is_substring t s'
  end.

(** [iter(x)]: the elements of a list, the keys of a dict, the characters
    of a str. *)
Definition py_iter (x : json) : result (list json) :=
  match x with
  | JArr l => Ok l
  | JObj m => Ok (map (fun kv => JStr (fst kv)) m)
  | JStr s => Ok (chars s)
  | _ => Raise TypeError
  end.

(** [x in c] *)
Definition py_in (x c : json) : result bool :=
  match c with
  | JArr l => Ok (existsb (fun y => py_eq y x) l)
  | JObj m =>
      match x with
      | JArr _ | JObj _ => Raise TypeError
      | JStr k => Ok (bool_decide (is_Some (assoc_get k m)))
      | _ => Ok false
      end
  | JStr s =>
      match x with
      | JStr t => Ok (is_substring t s)
      | _ => Raise TypeError
      end
  | _ => Raise TypeError
  end.

(** [l.append(x)] *)
Definition list_append (l x : json) : result json :=
  match l with
  | JArr xs => Ok (JArr (xs ++ [x]))
  | _ => Raise AttributeError
  end.

(** [l.extend(it)] *)
Definition list_extend (l it : json) : result json :=
  match l with
  | JArr xs => ys ← py_iter it; Ok (JArr (xs ++ ys))
  | _ => Raise AttributeError
  end.

(** Truth value of an object, as tested by [and] and [if]. *)
Definition truthy (x : json) : bool :=
  match x with
  | JNull => false
  | JBool b => b
  | JInt n => negb (Z.eqb n 0)
  | JStr s => negb (String.eqb s "")
  | JArr l => match l with [] => false | _ => true end
  | JObj m => match m with [] => false | _ => true end
  end.

(** [x[0]] *)
Definition getitem0 (x : json) : result json :=
  match x with
  | JArr l =>
      match l !! 0%nat with Some y => Ok y | None => Raise IndexError end
  | JStr s =>
      match chars s !! 0%nat with Some y => Ok y | None => Raise IndexError end
  | JObj _ => Raise KeyError
  | _ => Raise TypeError
  end.

(** [len(x)] *)
Definition py_len (x : json) : result nat :=
  match x with
  | JArr l => Ok (length l)
  | JObj m => Ok (length m)
  | JStr s => Ok (String.length s)
  | _ => Raise TypeError
  end.

(** ** The identifier merge (source lines 32-37) *)

Definition ids_key : string := "includedArchiveIdentifiers".
Arguments ids_key : simpl never.

(** The body of [for aid in listkit_ids], run over the elements that the
    iteration yields; [archive_ids] is the list being grown. *)
Fixpoint append_missing (archive_ids : json) (listkit_ids : list json)
  : result json :=
  match listkit_ids with
  | [] => Ok archive_ids
  | aid :: rest =>
      present ← py_in aid archive_ids;
      if negb present
      then archive_ids' ← list_append archive_ids aid;
           append_missing archive_ids' rest
      else append_missing archive_ids rest
  end.

(** Lines 32-37.  Returns the updated [lists_index] and [archive_ids]. *)
Definition merge_identifiers (lists_index listkit_index : json)
  : result (json * json) :=
  archive_ids ← dict_get lists_index ids_key (JArr []);
  listkit_ids ← dict_get listkit_index ids_key (JArr []);
  elems ← py_iter listkit_ids;
  archive_ids ← append_missing archive_ids elems;
  lists_index ← dict_setitem lists_index ids_key archive_ids;
  Ok (lists_index, archive_ids).

(** ** The navigator merge (source lines 40-48) *)

Definition langs_key : string := "interfaceLanguages".
Definition swift_key : string := "swift".
Definition children_key : string := "children".
Arguments langs_key : simpl never.
Arguments swift_key : simpl never.
Arguments children_key : simpl never.

(** [l[0] = x] for a list [l]; used to store the mutated root back. *)
Definition list_setitem0 (l x : json) : result json :=
  match l with
  | JArr xs =>
      match xs with
      | [] => Raise IndexError
      | _ => Ok (JArr (<[0%nat := x]> xs))
      end
  | _ => Raise TypeError
  end.

(** Lines 40-48.  Returns the updated [lists_index] and [listkit_items].
    [root] is the object stored at [lists_index[langs][swift][0]], so the
    assignment to [root[children]] is visible there: the last three steps
    of the branch store the new root along that path. *)
Definition merge_navigator (lists_index listkit_index : json)
  : result (json * json) :=
  listkit_langs ← dict_get listkit_index langs_key (JObj []);
  listkit_items ← dict_get listkit_langs swift_key (JArr []);
  lists_langs ← dict_get lists_index langs_key (JObj []);
  lists_items ← dict_get lists_langs swift_key (JArr []);
  if truthy lists_items && truthy listkit_items
  then
    root ← getitem0 lists_items;
    children ← dict_get root children_key (JArr []);
    children ← list_extend children listkit_items;
    root ← dict_setitem root children_key children;
    lists_items ← list_setitem0 lists_items root;
    lists_langs ← dict_setitem lists_langs swift_key lists_items;
    lists_index ← dict_setitem lists_index langs_key lists_langs;
    Ok (lists_index, listkit_items)
  else Ok (lists_index, listkit_items).

(** Lines 31-48: everything between the two reads and the write. *)
Definition merge_index (lists_index listkit_index : json)
  : result (json * json * json) :=
  '(lists_index, archive_ids) ← merge_identifiers lists_index listkit_index;
  '(lists_index, listkit_items) ← merge_navigator lists_index listkit_index;
  Ok (lists_index, listkit_items, archive_ids).

(** ** The process: files, standard output, exit status *)

Inductive open_mode : Type := ModeR | ModeW.

Inductive event : Type :=
| EOpen (path : string) (mode : open_mode)
| EPrint (line : string).

Record world : Type := World {
  files : gmap string string;
  trace : list event
}.

Definition io (A : Type) : Type := world -> world * result A.

#[global] Instance io_ret : MRet io := fun _ a w => (w, Ok a).
#[global] Instance io_bind : MBind io := fun _ _ k c w =>
  match c w with
  | (w', Ok a) => k a w'
  | (w', Raise e) => (w', Raise e)
  end.
Definition lift {A} (r : result A) : io A := fun w => (w, r).
Definition raise {A} (e : exn) : io A := fun w => (w, Raise e).

Definition log (e : event) (w : world) : world :=
  World (files w) (trace w ++ [e]).

(** [print(line)], on a standard output that accepts the line. *)
Definition print (line : string) : io unit := fun w =>
  (log (EPrint line) w, Ok tt).

(** The lines printed so far. *)
Definition stdout (w : world) : list string :=
  omap (fun e => match e with EPrint l => Some l | EOpen _ _ => None end)
       (trace w).

(** The paths opened so far, with their mode. *)
Definition opened (w : world) : list (string * open_mode) :=
  omap (fun e => match e with EOpen p m => Some (p, m) | EPrint _ => None end)
       (trace w).

(** [sys.argv[i]] *)
Definition argv_get (sys_argv : list string) (i : nat) : result string :=
  match sys_argv !! i with
  | Some a => Ok a
  | None => Raise IndexError
  end.

(** What the interpreter hands back to the shell: 0 when [main] returns,
    the code of a [sys.exit], 1 after any other uncaught exception.  (The
    interpreter's own failure to flush standard output at exit is not
    part of [main] and is not modelled.) *)
Definition exit_status (r : result unit) : Z :=
  match r with
  | Ok _ => 0
  | Raise (SystemExit c) => c
  | Raise _ => 1
  end.

(** [f"{dir}/index/index.json"] (lines 22-23) *)
Definition index_json (dir : string) : string := dir +:+ "/index/index.json".

(** The usage message (line 16). *)
Definition usage_line (argv0 : string) : string :=
  "Usage: " +:+ argv0 +:+ " <listkit-doccarchive> <docs-dir>".

Section Host.

(** [json.loads], [json.dumps(_, separators=(",", ":"))] and [str()] on a
    loaded value, as the host runtime provides them. *)
Variable json_loads : string -> option json.
Variable json_dumps : json -> string.
Variable py_str : json -> string.

(** [with open(path) as f: json.load(f)] *)
Definition json_load (path : string) : io json := fun w =>
  let w := log (EOpen path ModeR) w in
  match files w !! path with
  | None => (w, Raise FileNotFoundError)
  | Some text =>
      match json_loads text with
      | Some doc => (w, Ok doc)
      | None => (w, Raise JSONDecodeError)
      end
  end.

(** [with open(path, "w") as f: json.dump(doc, f, separators=(",", ":"))] *)
Definition json_dump (doc : json) (path : string) : io unit := fun w =>
  let w := log (EOpen path ModeW) w in
  (World (<[path := json_dumps doc]> (files w)) (trace w), Ok tt).

Definition main (sys_argv : list string) : io unit :=
  if negb (Nat.eqb (length sys_argv) 3) then
    argv0 ← lift (argv_get sys_argv 0);
    print (usage_line argv0);;
    raise (SystemExit 1)
  else
    listkit_archive ← lift (argv_get sys_argv 1);
    docs_dir ← lift (argv_get sys_argv 2);
    let lists_index_path := index_json docs_dir in
    let listkit_index_path := index_json listkit_archive in
    lists_index ← json_load lists_index_path;
    listkit_index ← json_load listkit_index_path;
    '(lists_index, listkit_items, archive_ids) ←
      lift (merge_index lists_index listkit_index);
    json_dump lists_index lists_index_path;;
    count ← lift (py_len listkit_items);
    print ("Merged " +:+ pretty count +:+ " ListKit entries into "
           +:+ lists_index_path);;
    print ("Archive identifiers: " +:+ py_str archive_ids).

(** Reading [path] fails: the file is missing or is not JSON. *)
Definition load_fails (fs : gmap string string) (path : string) : bool :=
  match fs !! path with
  | None => true
  | Some text =>
      match json_loads text with
      | Some _ => false
      | None => true
      end
  end.

(** Reading [path] yields the document [doc]. *)
Definition loads_to (fs : gmap string string) (path : string) (doc : json)
  : Prop :=
  exists text, fs !! path = Some text /\ json_loads text = Some doc.

(** Running the script: the final world and the exit status. *)
Definition run (sys_argv : list string) (w : world) : world * Z :=
  let (w', r) := main sys_argv w in (w', exit_status r).

End Host.

(** ** Views of a document of the expected shape

    These accessors are used in statements only.  They read a field the
    way the script does, with its default when the key is absent, and are
    defined exactly on the shapes on which the script's own accesses do not
    raise: the identifiers are a list of strs, the languages a dict, the
    swift entry and a node's children a list. *)

Definition obj_lookup (d : json) (k : string) : option json :=
  match d with
  | JObj m => assoc_get k m
  | _ => None
  end.

Definition strs (l : list string) : json := JArr (JStr <$> l).

Fixpoint as_strs (l : list json) : option (list string) :=
  match l with
  | [] => Some []
  | JStr s :: l' => (s ::.) <$> as_strs l'
  | _ => None
  end.

Definition doc_ids (d : json) : option (list string) :=
  match d with
  | JObj m =>
      match assoc_get ids_key m with
      | None => Some []
      | Some (JArr l) => as_strs l
      | Some _ => None
      end
  | _ => None
  end.

Definition doc_items (d : json) : option (list json) :=
  match d with
  | JObj m =>
      match assoc_get langs_key m with
      | None => Some []
      | Some (JObj langs) =>
          match assoc_get swift_key langs with
          | None => Some []
          | Some (JArr l) => Some l
          | Some _ => None
          end
      | Some _ => None
      end
  | _ => None
  end.

Definition node_children (n : json) : option (list json) :=
  match n with
  | JObj m =>
      match assoc_get children_key m with
      | None => Some []
      | Some (JArr l) => Some l
      | Some _ => None
      end
  | _ => None
  end.

(** The swift entry itself, when both keys are present. *)
Definition swift_entry (d : json) : option json :=
  langs ← obj_lookup d langs_key; obj_lookup langs swift_key.

(** ** Identifier lists, declaratively *)

(** The elements of [B] that are neither in [A] nor at an earlier position
    of [B], in the order of [B]. *)
Definition first_new (A B : list string) : list string :=
  concat (imap (fun i b => if decide (b ∈ A ++ take i B) then [] else [b]) B).

(** The merged list as the specification words it: [A], then the elements
    of [B] that are not in [A]. *)
Definition ids_as_specified (A B : list string) : list string :=
  A ++ filter (fun b => b ∉ A) B.

(** The paths opened for writing so far. *)
Definition written (w : world) : list string :=
  omap (fun e => match e with EOpen p ModeW => Some p | _ => None end)
       (trace w).

(** Both documents have the shape of the data model as far as the script
    looks at it: identifier lists of strs, a swift entry that is a list
    and, when a navigator merge will take place, a root node whose
    children are a list.  Absent keys are fine everywhere. *)
Definition well_shaped (p s : json) : bool :=
  match doc_ids p, doc_ids s, doc_items p, doc_items s with
  | Some _, Some _, Some lp, Some ls =>
      match lp, ls with
      | root :: _, _ :: _ =>
          match node_children root with Some _ => true | None => false end
      | _, _ => true
      end
  | _, _, _, _ => false
  end.

(** ** Sample documents and a sample host

    Concrete inputs for the examples below.  The sample codec knows the
    sample documents by name; nothing is proved about it. *)

Definition node (title : string) (children : list json) : json :=
  JObj [("title", JStr title); (children_key, JArr children)].

Definition index_doc (ids : list string) (items : list json) : json :=
  JObj [(langs_key, JObj [(swift_key, JArr items)]); (ids_key, strs ids)].

Definition lists_doc : json :=
  index_doc ["com.listkit.Lists"] [node "Lists" [node "X" []]].
Definition listkit_doc : json :=
  index_doc ["com.listkit.ListKit"] [node "Y" []; node "Z" []].
Definition bare_doc : json := JObj [("schemaVersion", JInt 0)].
Definition empty_doc : json := index_doc ["com.listkit.Lists"] [].

Definition sample_loads (text : string) : option json :=
  if String.eqb text "lists" then Some lists_doc
  else if String.eqb text "listkit" then Some listkit_doc
  else if String.eqb text "bare" then Some bare_doc
  else if String.eqb text "empty" then Some empty_doc
  else None.
Definition sample_dumps (doc : json) : string := "merged".
Definition sample_str (x : json) : string :=
  match x with
  | JArr l =>
      "[" +:+
      String.concat ", "
        (omap (fun y => match y with
                        | JStr s => Some ("'" +:+ s +:+ "'")
                        | _ => None
                        end) l)
      +:+ "]"
  | _ => "?"
  end.

Definition sample_world (lists_text listkit_text : string) : world :=
  World (<["docs/index/index.json" := lists_text]>
           (<["ListKit.doccarchive/index/index.json" := listkit_text]> ∅)) [].
Definition sample_argv : list string :=
  ["merge-docs-index.py"; "ListKit.doccarchive"; "docs"].

(** Identifier lists with a repeated element. *)
Definition twice_lists : list string :=
  ["com.listkit.Lists"; "com.listkit.Lists"].
Definition twice_listkit : list string :=
  ["com.listkit.ListKit"; "com.listkit.ListKit"].

(** ** Paths that name the same file

    [file_of path] is the file a path resolves to (its canonical name).
    The run creates no directory and no link, so the resolution does not
    change while it runs.  [json_load_at], [json_dump_at] and [main_at]
    are [json_load], [json_dump] and [main] over files rather than path
    strings; with the identity for [file_of] they are the same
    functions. *)

Section Aliasing.

Variable file_of : string -> string.
Variable json_loads : string -> option json.
Variable json_dumps : json -> string.
Variable py_str : json -> string.

(** [with open(path) as f: json.load(f)] *)
Definition json_load_at (path : string) : io json := fun w =>
  let w := log (EOpen path ModeR) w in
  match files w !! file_of path with
  | None => (w, Raise FileNotFoundError)
  | Some text =>
      match json_loads text with
      | Some doc => (w, Ok doc)
      | None => (w, Raise JSONDecodeError)
      end
  end.

(** [with open(path, "w") as f: json.dump(doc, f, separators=(",", ":"))] *)
Definition json_dump_at (doc : json) (path : string) : io unit := fun w =>
  let w := log (EOpen path ModeW) w in
  (World (<[file_of path := json_dumps doc]> (files w)) (trace w), Ok tt).

Definition main_at (sys_argv : list string) : io unit :=
  if negb (Nat.eqb (length sys_argv) 3) then
    argv0 ← lift (argv_get sys_argv 0);
    print (usage_line argv0);;
    raise (SystemExit 1)
  else
    listkit_archive ← lift (argv_get sys_argv 1);
    docs_dir ← lift (argv_get sys_argv 2);
    let lists_index_path := index_json docs_dir in
    let listkit_index_path := index_json listkit_archive in
    lists_index ← json_load_at lists_index_path;
    listkit_index ← json_load_at listkit_index_path;
    '(lists_index, listkit_items, archive_ids) ←
      lift (merge_index lists_index listkit_index);
    json_dump_at lists_index lists_index_path;;
    count ← lift (py_len listkit_items);
    print ("Merged " +:+ pretty count +:+ " ListKit entries into "
           +:+ lists_index_path);;
    print ("Archive identifiers: " +:+ py_str archive_ids).

End Aliasing.

(** A sample resolution: a leading [./] does not change the file. *)
Definition sample_file_of (path : string) : string :=
  if String.prefix "./" path
  then String.substring 2 (String.length path - 2) path
  else path.

(** Two spellings of one directory as the two arguments. *)
Definition alias_argv : list string :=
  ["merge-docs-index.py"; "./docs"; "docs"].
Definition alias_world : world :=
  World {["docs/index/index.json" := "lists"]} [].

(** ** Further views, used in statements only *)

(** The keys of a document, in the order in which it is serialised. *)
Definition doc_keys (d : json) : list string :=
  match d with
  | JObj m => m.*1
  | _ => []
  end.

Definition is_object (d : json) : bool :=
  match d with
  | JObj _ => true
  | _ => false
  end.

(** The entry of one language, when both keys are present. *)
Definition lang_entry (d : json) (lang : string) : option json :=
  langs ← obj_lookup d langs_key; obj_lookup langs lang.

(** The identifier list of a document whatever its elements are, with the
    script's default when the key is absent. *)
Definition ids_raw (d : json) : option (list json) :=
  match d with
  | JObj m =>
      match assoc_get ids_key m with
      | None => Some []
      | Some (JArr l) => Some l
      | Some _ => None
      end
  | _ => None
  end.

Definition is_system_exit (e : exn) : bool :=
  match e with
  | SystemExit _ => true
  | _ => false
  end.

(** The files a complete run opens, in order. *)
Definition opens_of_run (listkit_archive docs_dir : string)
  : list (string * open_mode) :=
  [(index_json docs_dir, ModeR);
   (index_json listkit_archive, ModeR);
   (index_json docs_dir, ModeW)].

(** A second sample codec, which also reads back what [sample_dumps]
    writes as the merge of the two sample documents. *)
Definition merged_doc : json :=
  index_doc ["com.listkit.Lists"; "com.listkit.ListKit"]
    [node "Lists" [node "X" []; node "Y" []; node "Z" []]].
Definition rerun_loads (text : string) : option json :=
  if String.eqb text "merged" then Some merged_doc else sample_loads text.

(** A third one, which also reads an empty JSON array. *)
Definition array_loads (text : string) : option json :=
  if String.eqb text "[]" then Some (JArr []) else sample_loads text.

(** * Properties *)

(** ** Association lists *)

Lemma assoc_get_set_eq k v m : assoc_get k (assoc_set k v m) = Some v.
Proof.
  induction m as [|[k' v'] m IH]; simpl.
  - by rewrite String.eqb_refl.
  - destruct (String.eqb k k') eqn:E; simpl; rewrite ?String.eqb_refl, ?E; done.
Qed.

Lemma assoc_get_set_ne k k' v m :
  k ≠ k' -> assoc_get k' (assoc_set k v m) = assoc_get k' m.
Proof.
  intros Hne. induction m as [|[k0 v0] m IH]; simpl.
  - by apply String.eqb_neq in Hne; rewrite String.eqb_sym, Hne.
  - destruct (String.eqb k k0) eqn:E; simpl.
    + apply String.eqb_eq in E; subst k0.
      destruct (String.eqb k' k) eqn:E'; [|done].
      apply String.eqb_eq in E'; congruence.
    + by rewrite IH.
Qed.

Lemma assoc_set_set k v v' m :
  assoc_set k v (assoc_set k v' m) = assoc_set k v m.
Proof.
  induction m as [|[k0 v0] m IH]; simpl.
  - by rewrite String.eqb_refl.
  - destruct (String.eqb k k0) eqn:E; simpl; rewrite ?String.eqb_refl, ?E, ?IH; done.
Qed.

Lemma as_strs_Some l A : as_strs l = Some A <-> l = JStr <$> A.
Proof.
  revert A. induction l as [|x l IH]; intros A; simpl.
  - split; [intros [= <-]; done | by destruct A].
  - destruct x; try (split; [done | by destruct A]).
    destruct (as_strs l) as [A'|] eqn:E; simpl.
    + split.
      * intros [= <-]. simpl. f_equal. by apply IH.
      * destruct A as [|a A]; [done|]. intros [= -> H]. f_equal. f_equal.
        apply IH in H. congruence.
    + split; [done|]. destruct A as [|a A]; [done|]. intros [= -> H].
      apply IH in H. done.
Qed.

Lemma as_strs_fmap A : as_strs (JStr <$> A) = Some A.
Proof. by apply as_strs_Some. Qed.

Lemma py_in_strs b A : py_in (JStr b) (strs A) = Ok (bool_decide (b ∈ A)).
Proof.
  unfold strs; simpl. f_equal. induction A as [|a A IH]; csimpl.
  - done.
  - rewrite IH. destruct (String.eqb a b) eqn:E; simpl.
    + apply String.eqb_eq in E; subst. symmetry.
      apply bool_decide_eq_true. left.
    + apply String.eqb_neq in E. apply bool_decide_ext. set_solver.
Qed.

Lemma first_new_cons A b B :
  first_new A (b :: B) =
  if decide (b ∈ A) then first_new A B else b :: first_new (A ++ [b]) B.
Proof.
  unfold first_new. simpl. rewrite app_nil_r.
  destruct (decide (b ∈ A)) as [Hin|Hnin]; simpl; [f_equal | do 2 f_equal].
  - apply imap_ext; intros i x _; simpl.
    repeat case_decide; set_solver.
  - apply imap_ext; intros i x _; simpl.
    by rewrite <- app_assoc.
Qed.

Lemma append_missing_strs B : forall A,
  append_missing (strs A) (JStr <$> B) = Ok (strs (A ++ first_new A B)).
Proof.
  induction B as [|b B IH]; intros A.
  - simpl. by rewrite app_nil_r.
  - rewrite first_new_cons. cbn [fmap list_fmap append_missing].
    rewrite py_in_strs. cbn [mbind result_bind].
    destruct (decide (b ∈ A)) as [Hin|Hnin].
    + rewrite bool_decide_eq_true_2 by done. simpl. apply IH.
    + rewrite bool_decide_eq_false_2 by done. cbn.
      replace (JArr ((JStr <$> A) ++ [JStr b])) with (strs (A ++ [b])).
      * rewrite IH. by rewrite <- app_assoc.
      * unfold strs. by rewrite fmap_app.
Qed.

Lemma first_new_covered M B : (forall b, b ∈ B -> b ∈ M) -> first_new M B = [].
Proof.
  induction B as [|b B IH]; intros Hsub; [done|].
  rewrite first_new_cons, decide_True by (apply Hsub; left).
  apply IH. intros x Hx. apply Hsub. by right.
Qed.

Lemma first_new_complete B : forall A b, b ∈ B -> b ∈ A ++ first_new A B.
Proof.
  induction B as [|x B IH]; intros A b Hb; [by apply elem_of_nil in Hb|].
  rewrite first_new_cons. apply elem_of_cons in Hb as [->|Hb].
  - destruct (decide (x ∈ A)); set_solver.
  - destruct (decide (x ∈ A)); [by apply IH|].
    specialize (IH (A ++ [x]) b Hb). rewrite <- app_assoc in IH. done.
Qed.

Lemma first_new_NoDup B : forall A, NoDup A -> NoDup (A ++ first_new A B).
Proof.
  induction B as [|x B IH]; intros A HA.
  - unfold first_new; simpl. by rewrite app_nil_r.
  - rewrite first_new_cons. destruct (decide (x ∈ A)) as [Hin|Hnin]; [by apply IH|].
    replace (A ++ x :: first_new (A ++ [x]) B)
      with ((A ++ [x]) ++ first_new (A ++ [x]) B) by by rewrite <- app_assoc.
    apply IH. apply NoDup_app. split_and!; [done| |apply NoDup_singleton].
    intros y Hy ->%list_elem_of_singleton. done.
Qed.

Lemma filter_ext_elem (P Q : string -> Prop)
    `{!forall x, Decision (P x)} `{!forall x, Decision (Q x)} (l : list string) :
  (forall x, x ∈ l -> P x <-> Q x) -> filter P l = filter Q l.
Proof.
  induction l as [|x l IH]; intros Hext; [done|].
  rewrite !filter_cons, IH by (intros y Hy; apply Hext; by right).
  assert (P x <-> Q x) as Hx by (apply Hext; left).
  destruct (decide (P x)) as [HP|HP], (decide (Q x)) as [HQ|HQ];
    try done; tauto.
Qed.

Lemma first_new_filter B : forall A,
  NoDup B -> first_new A B = filter (fun b => b ∉ A) B.
Proof.
  induction B as [|x B IH]; intros A HB; [done|].
  apply NoDup_cons in HB as [Hx HB].
  rewrite first_new_cons, filter_cons.
  destruct (decide (x ∈ A)) as [Hin|Hnin].
  - rewrite decide_False by (intros Hn; by apply Hn). by apply IH.
  - rewrite decide_True by done. f_equal. rewrite IH by done.
    apply filter_ext_elem. intros y Hy. split.
    + intros Hn Hin. apply Hn. apply elem_of_app. by left.
    + intros Hn [Hin| ->%list_elem_of_singleton]%elem_of_app; done.
Qed.

(** ** What the script's accesses return on the expected shapes *)

Lemma doc_ids_get d A :
  doc_ids d = Some A ->
  exists m, d = JObj m /\ dict_get d ids_key (JArr []) = Ok (strs A).
Proof.
  destruct d as [| | | | |m]; try done. simpl. intros H. exists m. split; [done|].
  destruct (assoc_get ids_key m) as [[]|]; try done.
  - apply as_strs_Some in H. by subst.
  - by injection H as <-.
Qed.

Lemma doc_ids_set m A :
  doc_ids (JObj (assoc_set ids_key (strs A) m)) = Some A.
Proof. simpl. rewrite assoc_get_set_eq. apply as_strs_fmap. Qed.

Lemma doc_items_get d l :
  doc_items d = Some l ->
  exists m langs,
    d = JObj m /\
    dict_get d langs_key (JObj []) = Ok (JObj langs) /\
    dict_get (JObj langs) swift_key (JArr []) = Ok (JArr l) /\
    (l <> [] ->
     assoc_get langs_key m = Some (JObj langs) /\
     assoc_get swift_key langs = Some (JArr l)).
Proof.
  destruct d as [| | | | |m]; try done. simpl. intros H.
  destruct (assoc_get langs_key m) as [[| | | | |langs]|] eqn:E; try done.
  - exists m, langs. split; [done|]. split; [done|].
    destruct (assoc_get swift_key langs) as [[]|] eqn:E'; try done;
      injection H as <-; unfold dict_get; naive_solver.
  - injection H as <-. exists m, []. done.
Qed.

Lemma node_children_get n cs :
  node_children n = Some cs ->
  exists m, n = JObj m /\ dict_get n children_key (JArr []) = Ok (JArr cs).
Proof.
  destruct n as [| | | | |m]; try done. simpl. intros H. exists m. split; [done|].
  destruct (assoc_get children_key m) as [[]|]; try done; by injection H as <-.
Qed.

Lemma doc_items_set_other k v m :
  k <> langs_key -> doc_items (JObj (assoc_set k v m)) = doc_items (JObj m).
Proof. intros Hk. simpl. by rewrite assoc_get_set_ne. Qed.

(** ** The two halves of the merge on the expected shapes *)

Lemma merge_identifiers_shape p s A B :
  doc_ids p = Some A -> doc_ids s = Some B ->
  exists m,
    p = JObj m /\
    merge_identifiers p s =
      Ok (JObj (assoc_set ids_key (strs (A ++ first_new A B)) m),
          strs (A ++ first_new A B)).
Proof.
  intros (m & -> & Hp)%doc_ids_get (ms & -> & Hs)%doc_ids_get.
  exists m. split; [done|]. unfold merge_identifiers.
  rewrite Hp, Hs. cbn [mbind result_bind strs py_iter].
  fold (strs A). rewrite append_missing_strs. done.
Qed.

Lemma merge_navigator_skip p s lp ls :
  doc_items p = Some lp -> doc_items s = Some ls ->
  lp = [] \/ ls = [] ->
  merge_navigator p s = Ok (p, JArr ls).
Proof.
  intros (m & langs & -> & Hl & Hi & _)%doc_items_get
         (ms & langss & -> & Hls & His & _)%doc_items_get Hempty.
  unfold merge_navigator. rewrite Hls. cbn [mbind result_bind].
  rewrite His. cbn [mbind result_bind]. rewrite Hl. cbn [mbind result_bind].
  rewrite Hi. cbn [mbind result_bind].
  destruct Hempty as [-> | ->]; simpl; [done|]. by rewrite andb_false_r.
Qed.

Lemma merge_navigator_append p s root rest y ys cs :
  doc_items p = Some (root :: rest) -> doc_items s = Some (y :: ys) ->
  node_children root = Some cs ->
  exists p' root',
    merge_navigator p s = Ok (p', JArr (y :: ys)) /\
    doc_items p' = Some (root' :: rest) /\
    node_children root' = Some (cs ++ y :: ys) /\
    (forall k, k <> children_key -> obj_lookup root' k = obj_lookup root k) /\
    (forall k, k <> langs_key -> obj_lookup p' k = obj_lookup p k).
Proof.
  intros (m & langs & -> & Hl & Hi & Hpath)%doc_items_get
         (ms & langss & -> & Hls & His & _)%doc_items_get
         (rm & -> & Hc)%node_children_get.
  destruct Hpath as [Hm Hlangs]; [done|].
  eexists _, (JObj (assoc_set children_key (JArr (cs ++ y :: ys)) rm)).
  split; [|split; [|split; [|split]]].
  - unfold merge_navigator. rewrite Hls. cbn [mbind result_bind].
    rewrite His. cbn [mbind result_bind]. rewrite Hl. cbn [mbind result_bind].
    rewrite Hi. cbn [mbind result_bind truthy andb getitem0 lookup list_lookup].
    rewrite Hc. cbn. reflexivity.
  - simpl. rewrite assoc_get_set_eq, assoc_get_set_eq. done.
  - simpl. by rewrite assoc_get_set_eq.
  - intros k Hk. simpl. by apply assoc_get_set_ne.
  - intros k Hk. simpl. by apply assoc_get_set_ne.
Qed.

Lemma ids_key_not_langs : ids_key <> langs_key.
Proof. done. Qed.

Lemma doc_ids_of_lookup d A :
  obj_lookup d ids_key = Some (strs A) -> doc_ids d = Some A.
Proof.
  destruct d as [| | | | |m]; try done. simpl. intros ->. apply as_strs_fmap.
Qed.

Lemma doc_ids_absent d :
  obj_lookup d ids_key = None -> is_Some (doc_ids d) -> doc_ids d = Some [].
Proof.
  destruct d as [| | | | |m]; simpl; intros H [A HA]; try done. by rewrite H.
Qed.

Lemma swift_entry_absent d l :
  swift_entry d = None -> doc_items d = Some l -> l = [].
Proof.
  destruct d as [| | | | |m]; try done. unfold swift_entry. simpl.
  destruct (assoc_get langs_key m) as [[| | | | |langs]|]; simpl; try done.
  - intros ->. by intros [= <-].
  - by intros _ [= <-].
Qed.

(** ** The whole in-memory merge on the expected shapes *)

Section Merge.

Variables (p s : json) (A B : list string).
Hypothesis Hp : doc_ids p = Some A.
Hypothesis Hs : doc_ids s = Some B.

Let M := A ++ first_new A B.

Lemma merge_index_skip lp ls :
  doc_items p = Some lp -> doc_items s = Some ls ->
  lp = [] \/ ls = [] ->
  exists m,
    p = JObj m /\
    merge_index p s = Ok (JObj (assoc_set ids_key (strs M) m), JArr ls, strs M).
Proof.
  intros Hlp Hls Hempty.
  destruct (merge_identifiers_shape p s A B Hp Hs) as (m & -> & Hids).
  exists m. split; [done|]. unfold merge_index. rewrite Hids.
  cbn [mbind result_bind].
  erewrite merge_navigator_skip; [done| |exact Hls|exact Hempty].
  by rewrite doc_items_set_other by apply ids_key_not_langs.
Qed.

Lemma merge_index_append root rest y ys cs :
  doc_items p = Some (root :: rest) -> doc_items s = Some (y :: ys) ->
  node_children root = Some cs ->
  exists p' root',
    merge_index p s = Ok (p', JArr (y :: ys), strs M) /\
    obj_lookup p' ids_key = Some (strs M) /\
    doc_items p' = Some (root' :: rest) /\
    node_children root' = Some (cs ++ y :: ys) /\
    (forall k, k <> children_key -> obj_lookup root' k = obj_lookup root k) /\
    (forall k, k <> ids_key -> k <> langs_key ->
               obj_lookup p' k = obj_lookup p k).
Proof.
  intros Hlp Hls Hroot.
  destruct (merge_identifiers_shape p s A B Hp Hs) as (m & -> & Hids).
  destruct (merge_navigator_append
              (JObj (assoc_set ids_key (strs M) m)) s root rest y ys cs)
    as (p' & root' & Hnav & Hitems & Hch & Hfr & Hfp); [|done|done|].
  { by rewrite doc_items_set_other by apply ids_key_not_langs. }
  exists p', root'. split_and!; try done.
  - unfold merge_index. rewrite Hids. cbn [mbind result_bind].
    fold M. by rewrite Hnav.
  - rewrite Hfp by apply ids_key_not_langs. simpl. apply assoc_get_set_eq.
  - intros k Hk1 Hk2. rewrite Hfp by done. simpl. by apply assoc_get_set_ne.
Qed.

End Merge.

Lemma merge_index_total p s :
  well_shaped p s = true ->
  exists A B ls p',
    doc_ids p = Some A /\ doc_ids s = Some B /\ doc_items s = Some ls /\
    merge_index p s = Ok (p', JArr ls, strs (A ++ first_new A B)) /\
    obj_lookup p' ids_key = Some (strs (A ++ first_new A B)).
Proof.
  unfold well_shaped.
  destruct (doc_ids p) as [A|] eqn:HA; [|done].
  destruct (doc_ids s) as [B|] eqn:HB; [|done].
  destruct (doc_items p) as [lp|] eqn:Hlp; [|done].
  destruct (doc_items s) as [ls|] eqn:Hls; [|done].
  intros Hroot. exists A, B, ls.
  destruct lp as [|root rest].
  { destruct (merge_index_skip p s A B HA HB [] ls) as (m & -> & Hm); auto.
    eexists. split_and!; try done. simpl. apply assoc_get_set_eq. }
  destruct ls as [|y ys].
  { destruct (merge_index_skip p s A B HA HB (root :: rest) [])
      as (m & -> & Hm); auto.
    eexists. split_and!; try done. simpl. apply assoc_get_set_eq. }
  destruct (node_children root) as [cs|] eqn:Hcs; [|done].
  destruct (merge_index_append p s A B HA HB root rest y ys cs)
    as (p' & root' & Hm & Hid & _); try done.
  exists p'. done.
Qed.

(** ** The examples of the specification *)

Example first_new_example :
  first_new ["a"] ["b"; "a"; "b"; "c"] = ["b"; "c"].
Proof. reflexivity. Qed.

Example example_1 :
  merge_identifiers (index_doc ["com.listkit.Lists"] [])
                    (index_doc ["com.listkit.ListKit"] []) =
  Ok (index_doc ["com.listkit.Lists"; "com.listkit.ListKit"] [],
      strs ["com.listkit.Lists"; "com.listkit.ListKit"]).
Proof. reflexivity. Qed.

Example example_2 :
  merge_identifiers (index_doc ["com.listkit.Lists"; "com.listkit.ListKit"] [])
                    (index_doc ["com.listkit.ListKit"] []) =
  Ok (index_doc ["com.listkit.Lists"; "com.listkit.ListKit"] [],
      strs ["com.listkit.Lists"; "com.listkit.ListKit"]).
Proof. reflexivity. Qed.

Example example_3 :
  merge_index lists_doc listkit_doc =
    Ok (index_doc ["com.listkit.Lists"; "com.listkit.ListKit"]
          [node "Lists" [node "X" []; node "Y" []; node "Z" []]],
        JArr [node "Y" []; node "Z" []],
        strs ["com.listkit.Lists"; "com.listkit.ListKit"]) /\
  stdout (fst (main sample_loads sample_dumps sample_str sample_argv
                 (sample_world "lists" "listkit"))) =
    ["Merged 2 ListKit entries into docs/index/index.json";
     "Archive identifiers: ['com.listkit.Lists', 'com.listkit.ListKit']"].
Proof. split; reflexivity. Qed.

Example example_4 :
  run sample_loads sample_dumps sample_str ["merge-docs-index.py"; "docs"]
      (sample_world "lists" "listkit") =
  (World (files (sample_world "lists" "listkit"))
     [EPrint "Usage: merge-docs-index.py <listkit-doccarchive> <docs-dir>"],
   1%Z).
Proof. reflexivity. Qed.

(** Outside the data model the script behaves as Python does: a swift
    entry that is [null] in the secondary skips the navigator merge, the
    file is written, and [len] then raises. *)
Example null_swift_entry :
  merge_index bare_doc (JObj [(langs_key, JObj [(swift_key, JNull)])]) =
    Ok (JObj [("schemaVersion", JInt 0); (ids_key, JArr [])], JNull, JArr []) /\
  py_len JNull = Raise TypeError.
Proof. split; reflexivity. Qed.

(** ** Identifier merge *)

(** C1, as stated, fails: with a repeated identifier on either side the
    merged list is not [A] followed by the elements of [B] outside [A],
    and it has a repeated element. *)
Lemma ids_as_specified_counterexample :
  merge_identifiers (JObj [(ids_key, strs twice_lists)])
                    (JObj [(ids_key, strs twice_listkit)])
    = Ok (JObj [(ids_key, strs (twice_lists ++ ["com.listkit.ListKit"]))],
          strs (twice_lists ++ ["com.listkit.ListKit"])) /\
  twice_lists ++ ["com.listkit.ListKit"]
    <> ids_as_specified twice_lists twice_listkit /\
  ~ NoDup (twice_lists ++ ["com.listkit.ListKit"]).
Proof.
  split_and!.
  - reflexivity.
  - vm_compute. discriminate.
  - intros [Hnin _]%NoDup_cons. apply Hnin. left.
Qed.

(** C1 (amended).  When the identifier lists of the two documents are [A]
    and [B] (empty when the key is absent), the merged list is [A] followed
    by each element of [B] that is neither in [A] nor at an earlier position
    of [B], in the order of [B], and it is what the primary document holds
    afterwards.  If [B] has no repeated element this is [A] followed by the
    elements of [B] not in [A]; if [A] has no repeated element, neither
    has the merged list. *)
Theorem merged_identifiers_first_seen p s A B :
  doc_ids p = Some A -> doc_ids s = Some B ->
  exists p',
    merge_identifiers p s = Ok (p', strs (A ++ first_new A B)) /\
    doc_ids p' = Some (A ++ first_new A B) /\
    (NoDup B -> A ++ first_new A B = ids_as_specified A B) /\
    (NoDup A -> NoDup (A ++ first_new A B)).
Proof.
  intros Hp Hs.
  destruct (merge_identifiers_shape p s A B Hp Hs) as (m & -> & Hm).
  eexists. split_and!; [exact Hm|apply doc_ids_set| |].
  - intros HB. unfold ids_as_specified. by rewrite first_new_filter.
  - apply first_new_NoDup.
Qed.

Lemma merged_identifiers_first_seen_witness :
  exists p',
    merge_identifiers lists_doc
      (index_doc ["com.listkit.Lists"; "com.listkit.ListKit"] []) =
      Ok (p', strs ["com.listkit.Lists"; "com.listkit.ListKit"]) /\
    doc_ids p' = Some ["com.listkit.Lists"; "com.listkit.ListKit"].
Proof.
  destruct (merged_identifiers_first_seen lists_doc
              (index_doc ["com.listkit.Lists"; "com.listkit.ListKit"] [])
              ["com.listkit.Lists"]
              ["com.listkit.Lists"; "com.listkit.ListKit"])
    as (p' & Hm & Hd & _); [reflexivity|reflexivity|].
  exists p'. split; [exact Hm|exact Hd].
Defined.

(** C6.  Merging the same secondary document a second time into the
    already merged primary returns the identifier list of the first merge
    and leaves the document as the first merge left it. *)
Theorem identifier_merge_idempotent p s A B :
  doc_ids p = Some A -> doc_ids s = Some B ->
  exists p1 ids,
    merge_identifiers p s = Ok (p1, ids) /\
    merge_identifiers p1 s = Ok (p1, ids).
Proof.
  intros Hp Hs.
  destruct (merge_identifiers_shape p s A B Hp Hs) as (m & -> & Hm).
  set (M := A ++ first_new A B) in *.
  destruct (merge_identifiers_shape _ s M B (doc_ids_set m M) Hs)
    as (m1 & Heq & Hm1).
  injection Heq as <-.
  rewrite first_new_covered, app_nil_r, assoc_set_set in Hm1
    by (intros b Hb; by apply first_new_complete).
  eauto.
Qed.

Lemma identifier_merge_idempotent_witness :
  exists p1 ids,
    merge_identifiers lists_doc listkit_doc = Ok (p1, ids) /\
    merge_identifiers p1 listkit_doc = Ok (p1, ids).
Proof.
  apply (identifier_merge_idempotent lists_doc listkit_doc
           ["com.listkit.Lists"] ["com.listkit.ListKit"]); reflexivity.
Defined.

(** ** Navigator merge *)

(** C2.  When the swift sequences of both documents are non-empty, the
    merge succeeds and the first element of the primary's sequence has as
    children its original children followed by the whole top-level sequence
    of the secondary, as one run; the rest of the primary's sequence and
    the other fields of the root are as before. *)
Theorem root_children_extended p s A B root rest y ys cs :
  doc_ids p = Some A -> doc_ids s = Some B ->
  doc_items p = Some (root :: rest) -> doc_items s = Some (y :: ys) ->
  node_children root = Some cs ->
  exists p' ids root',
    merge_index p s = Ok (p', JArr (y :: ys), ids) /\
    doc_items p' = Some (root' :: rest) /\
    node_children root' = Some (cs ++ y :: ys) /\
    (forall k, k <> children_key -> obj_lookup root' k = obj_lookup root k).
Proof.
  intros Hp Hs Hlp Hls Hcs.
  destruct (merge_index_append p s A B Hp Hs root rest y ys cs Hlp Hls Hcs)
    as (p' & root' & Hm & _ & Hitems & Hch & Hfr & _).
  exists p', (strs (A ++ first_new A B)), root'. done.
Qed.

Lemma root_children_extended_witness :
  exists p' ids root',
    merge_index lists_doc listkit_doc =
      Ok (p', JArr [node "Y" []; node "Z" []], ids) /\
    doc_items p' = Some [root'] /\
    node_children root' = Some [node "X" []; node "Y" []; node "Z" []].
Proof.
  destruct (root_children_extended lists_doc listkit_doc
              ["com.listkit.Lists"] ["com.listkit.ListKit"]
              (node "Lists" [node "X" []]) [] (node "Y" []) [node "Z" []]
              [node "X" []])
    as (p' & ids & root' & Hm & Hi & Hc & _); try reflexivity.
  exists p', ids, root'. split_and!; [exact Hm|exact Hi|exact Hc].
Defined.

(** C4.  When the swift sequence of either document is empty or absent,
    the merge raises nothing, every field of the primary other than the
    identifier list (the navigator tree among them) is as before, and the
    identifier list is the merged one. *)
Theorem empty_swift_keeps_navigator p s A B lp ls :
  doc_ids p = Some A -> doc_ids s = Some B ->
  doc_items p = Some lp -> doc_items s = Some ls ->
  lp = [] \/ ls = [] ->
  exists p',
    merge_index p s = Ok (p', JArr ls, strs (A ++ first_new A B)) /\
    obj_lookup p' langs_key = obj_lookup p langs_key /\
    (forall k, k <> ids_key -> obj_lookup p' k = obj_lookup p k) /\
    obj_lookup p' ids_key = Some (strs (A ++ first_new A B)).
Proof.
  intros Hp Hs Hlp Hls Hempty.
  destruct (merge_index_skip p s A B Hp Hs lp ls Hlp Hls Hempty)
    as (m & -> & Hm).
  eexists. split_and!; [exact Hm| | |]; simpl.
  - by apply assoc_get_set_ne, ids_key_not_langs.
  - intros k Hk. by apply assoc_get_set_ne.
  - apply assoc_get_set_eq.
Qed.

Lemma empty_swift_keeps_navigator_witness :
  exists p',
    merge_index bare_doc listkit_doc =
      Ok (p', JArr [node "Y" []; node "Z" []], strs ["com.listkit.ListKit"]) /\
    obj_lookup p' langs_key = None.
Proof.
  destruct (empty_swift_keeps_navigator bare_doc listkit_doc
              [] ["com.listkit.ListKit"] [] [node "Y" []; node "Z" []])
    as (p' & Hm & Hl & _); try reflexivity; [by left|].
  exists p'. split; [exact Hm|exact Hl].
Defined.

(** C5.  After a merge with non-empty swift sequences on both sides, a
    second merge of the same secondary into the merged primary appends the
    secondary's top-level nodes to the root's children once more, and
    returns and stores the identifier list of the first merge. *)
Theorem second_merge_duplicates_children p s A B root rest y ys cs :
  doc_ids p = Some A -> doc_ids s = Some B ->
  doc_items p = Some (root :: rest) -> doc_items s = Some (y :: ys) ->
  node_children root = Some cs ->
  exists p1 p2 ids root2,
    merge_index p s = Ok (p1, JArr (y :: ys), ids) /\
    merge_index p1 s = Ok (p2, JArr (y :: ys), ids) /\
    doc_items p2 = Some (root2 :: rest) /\
    node_children root2 = Some ((cs ++ y :: ys) ++ y :: ys) /\
    obj_lookup p1 ids_key = Some ids /\
    obj_lookup p2 ids_key = Some ids.
Proof.
  intros Hp Hs Hlp Hls Hcs.
  destruct (merge_index_append p s A B Hp Hs root rest y ys cs Hlp Hls Hcs)
    as (p1 & root1 & Hm1 & Hid1 & Hitems1 & Hch1 & _).
  set (M := A ++ first_new A B) in *.
  destruct (merge_index_append p1 s M B (doc_ids_of_lookup _ _ Hid1) Hs
              root1 rest y ys (cs ++ y :: ys) Hitems1 Hls Hch1)
    as (p2 & root2 & Hm2 & Hid2 & Hitems2 & Hch2 & _).
  rewrite first_new_covered, app_nil_r in Hm2, Hid2
    by (intros b Hb; by apply first_new_complete).
  exists p1, p2, (strs M), root2. done.
Qed.

Lemma second_merge_duplicates_children_witness :
  exists p1 p2 ids root2,
    merge_index lists_doc listkit_doc =
      Ok (p1, JArr [node "Y" []; node "Z" []], ids) /\
    merge_index p1 listkit_doc =
      Ok (p2, JArr [node "Y" []; node "Z" []], ids) /\
    doc_items p2 = Some [root2] /\
    node_children root2 =
      Some [node "X" []; node "Y" []; node "Z" []; node "Y" []; node "Z" []] /\
    obj_lookup p2 ids_key = Some ids.
Proof.
  destruct (second_merge_duplicates_children lists_doc listkit_doc
              ["com.listkit.Lists"] ["com.listkit.ListKit"]
              (node "Lists" [node "X" []]) [] (node "Y" []) [node "Z" []]
              [node "X" []])
    as (p1 & p2 & ids & root2 & H1 & H2 & Hi & Hc & _ & Hid); try reflexivity.
  exists p1, p2, ids, root2. split_and!; assumption.
Defined.

(** ** Absent fields *)

(** C7.  On documents whose present fields have the expected shape the
    merge raises nothing, whichever keys are absent.  An absent identifier
    list in the primary counts as the empty list, to which the secondary's
    identifiers are appended; an absent one in the secondary leaves the
    primary's list as it is; an absent language or swift entry in either
    document leaves the navigator tree as it is. *)
Theorem absent_fields_default p s :
  well_shaped p s = true ->
  exists p' items ids,
    merge_index p s = Ok (p', items, ids) /\
    obj_lookup p' ids_key = Some ids /\
    (obj_lookup p ids_key = None ->
     forall B, doc_ids s = Some B -> ids = strs ([] ++ first_new [] B)) /\
    (obj_lookup s ids_key = None ->
     forall A, doc_ids p = Some A -> ids = strs A) /\
    (swift_entry p = None \/ swift_entry s = None ->
     obj_lookup p' langs_key = obj_lookup p langs_key).
Proof.
  intros Hws.
  destruct (merge_index_total p s Hws)
    as (A & B & ls & p' & HA & HB & Hls & Hm & Hid).
  exists p', (JArr ls), (strs (A ++ first_new A B)). split_and!; try done.
  - intros Hnone B' HB'.
    rewrite (doc_ids_absent p Hnone) in HA by (rewrite HA; eauto). congruence.
  - intros Hnone A' HA'.
    rewrite (doc_ids_absent s Hnone) in HB by (rewrite HB; eauto).
    injection HB as <-. unfold first_new. simpl. rewrite app_nil_r. congruence.
  - intros Habsent.
    assert (exists lp, doc_items p = Some lp /\ (lp = [] \/ ls = []))
      as (lp & Hlp & Hempty).
    { unfold well_shaped in Hws. rewrite HA, HB, Hls in Hws.
      destruct (doc_items p) as [lp|] eqn:Hlp; [|done].
      exists lp. split; [done|].
      destruct Habsent as [Hnone|Hnone].
      - left. by apply (swift_entry_absent p).
      - right. by apply (swift_entry_absent s). }
    destruct (merge_index_skip p s A B HA HB lp ls Hlp Hls Hempty)
      as (m & -> & Hm').
    rewrite Hm in Hm'. injection Hm' as ->. simpl.
    by apply assoc_get_set_ne, ids_key_not_langs.
Qed.

Lemma absent_fields_default_witness :
  exists p' items,
    merge_index bare_doc listkit_doc =
      Ok (p', items, strs ["com.listkit.ListKit"]) /\
    obj_lookup p' langs_key = None.
Proof.
  destruct (absent_fields_default bare_doc listkit_doc)
    as (p' & items & ids & Hm & _ & Hids & _ & Hnav); [reflexivity|].
  exists p', items. split.
  - rewrite (Hids eq_refl ["com.listkit.ListKit"] eq_refl) in Hm. exact Hm.
  - apply Hnav. left. reflexivity.
Defined.

(** ** The in-memory merge without assumptions on the shapes *)

Ltac bind_inv H :=
  repeat match type of H with
  | context [mbind _ ?r] =>
      let E := fresh "E" in
      destruct r eqn:E; cbn [mbind result_bind] in H; [|discriminate H]
  | context [let (_, _) := ?x in _] => destruct x
  end.

Lemma merge_identifiers_inv p s p1 ids :
  merge_identifiers p s = Ok (p1, ids) ->
  exists m,
    p = JObj m /\ p1 = JObj (assoc_set ids_key ids m) /\
    (assoc_get ids_key m = None -> obj_lookup s ids_key = None ->
     ids = JArr []).
Proof.
  unfold merge_identifiers. intros H. bind_inv H.
  destruct p as [| | | | |m]; try discriminate.
  injection H as <- <-. injection E3 as <-. exists m. split_and!; try done.
  intros Hp Hs. simpl in E. rewrite Hp in E. injection E as <-.
  destruct s as [| | | | |ms]; try discriminate.
  simpl in E0, Hs. rewrite Hs in E0. injection E0 as <-.
  injection E1 as <-. simpl in E2. congruence.
Qed.

Lemma merge_navigator_frame p1 s p' items :
  merge_navigator p1 s = Ok (p', items) ->
  forall k, k <> langs_key -> obj_lookup p' k = obj_lookup p1 k.
Proof.
  unfold merge_navigator. intros H k Hk. bind_inv H.
  destruct (truthy _ && truthy _).
  - bind_inv H. injection H as <- <-.
    destruct p1 as [| | | | |m]; try discriminate.
    injection E9 as <-. simpl. by apply assoc_get_set_ne.
  - by injection H as <- <-.
Qed.

Lemma merge_index_ids_key p s p' items ids :
  merge_index p s = Ok (p', items, ids) ->
  obj_lookup p' ids_key = Some ids /\
  (obj_lookup p ids_key = None -> obj_lookup s ids_key = None ->
   ids = JArr []).
Proof.
  unfold merge_index. intros H. bind_inv H. injection H as <- <- <-.
  destruct (merge_identifiers_inv _ _ _ _ E) as (m & -> & -> & Hdef).
  split; [|exact Hdef].
  rewrite (merge_navigator_frame _ _ _ _ E0) by apply ids_key_not_langs.
  simpl. apply assoc_get_set_eq.
Qed.

Lemma merge_index_ids_merged p s p' items ids A B :
  merge_index p s = Ok (p', items, ids) ->
  doc_ids p = Some A -> doc_ids s = Some B ->
  ids = strs (A ++ first_new A B).
Proof.
  unfold merge_index. intros H HA HB. bind_inv H. injection H as <- <- <-.
  destruct (merge_identifiers_shape p s A B HA HB) as (m & _ & Hm).
  rewrite Hm in E. by injection E as <- <-.
Qed.

(** ** The process *)

Lemma written_log w e :
  written (log e w) =
  written w ++ match e with EOpen p ModeW => [p] | _ => [] end.
Proof.
  unfold written, log. simpl. rewrite omap_app. simpl.
  destruct e as [path []|line]; simpl; by rewrite ?app_nil_r.
Qed.

Lemma opened_log w e :
  opened (log e w) =
  opened w ++ match e with EOpen p m => [(p, m)] | EPrint _ => [] end.
Proof.
  unfold opened, log. simpl. rewrite omap_app. simpl.
  destruct e as [path mode|line]; simpl; by rewrite ?app_nil_r.
Qed.

Lemma stdout_log w e :
  stdout (log e w) =
  stdout w ++ match e with EPrint l => [l] | EOpen _ _ => [] end.
Proof.
  unfold stdout, log. simpl. rewrite omap_app. simpl.
  destruct e as [path mode|line]; simpl; by rewrite ?app_nil_r.
Qed.

Lemma io_bind_ok {A B} (c : io A) (k : A -> io B) w w' a :
  c w = (w', Ok a) -> (c ≫= k) w = k a w'.
Proof. intros H. unfold mbind, io_bind. by rewrite H. Qed.

Lemma io_bind_raise {A B} (c : io A) (k : A -> io B) w w' e :
  c w = (w', Raise e) -> (c ≫= k) w = (w', Raise e).
Proof. intros H. unfold mbind, io_bind. by rewrite H. Qed.

(** One step of a run: the first action of a sequence returns or raises. *)
Ltac io_step :=
  first [ erewrite io_bind_ok by (reflexivity || eassumption)
        | erewrite io_bind_raise by (reflexivity || eassumption) ];
  cbv beta iota.

Ltac main_three :=
  unfold main; cbn [length Nat.eqb negb argv_get lookup list_lookup].

Section Process.

Context (json_loads : string -> option json).
Context (json_dumps : json -> string).
Context (py_str : json -> string).

Local Abbreviation py_main := (main json_loads json_dumps py_str).
Local Abbreviation py_run := (run json_loads json_dumps py_str).

Lemma load_cases fs path :
  load_fails json_loads fs path = true \/
  exists doc, loads_to json_loads fs path doc.
Proof.
  unfold load_fails, loads_to.
  destruct (fs !! path) as [text|]; [|by left].
  destruct (json_loads text) as [doc|] eqn:E; [right|by left]. eauto.
Qed.

Lemma loads_to_not_fails fs path doc :
  loads_to json_loads fs path doc -> load_fails json_loads fs path = false.
Proof. intros (text & Hf & Hl). unfold load_fails. by rewrite Hf, Hl. Qed.

Lemma json_load_ok w path doc :
  loads_to json_loads (files w) path doc ->
  json_load json_loads path w = (log (EOpen path ModeR) w, Ok doc).
Proof. intros (text & Hf & Hl). unfold json_load. simpl. by rewrite Hf, Hl. Qed.

Lemma json_load_fails w path :
  load_fails json_loads (files w) path = true ->
  exists e,
    json_load json_loads path w = (log (EOpen path ModeR) w, Raise e) /\
    (e = FileNotFoundError \/ e = JSONDecodeError).
Proof.
  unfold load_fails, json_load. simpl.
  destruct (files w !! path) as [text|]; [|eauto].
  destruct (json_loads text); [done|eauto].
Qed.

Lemma main_usage prog args w :
  length args <> 2 ->
  py_main (prog :: args) w =
    (log (EPrint (usage_line prog)) w, Raise (SystemExit 1)).
Proof.
  intros Hlen. unfold main.
  destruct (Nat.eqb (length (prog :: args)) 3) eqn:E.
  - apply Nat.eqb_eq in E. simpl in E. lia.
  - reflexivity.
Qed.

Section ThreeArguments.

Variables (prog lk docs : string) (w : world).

Let w1 := log (EOpen (index_json docs) ModeR) w.
Let w2 := log (EOpen (index_json lk) ModeR) w1.

Lemma main_first_read_fails :
  load_fails json_loads (files w) (index_json docs) = true ->
  exists e,
    py_main [prog; lk; docs] w = (w1, Raise e) /\
    (e = FileNotFoundError \/ e = JSONDecodeError).
Proof.
  intros (e & Hload & He)%json_load_fails. exists e. split; [|done].
  main_three. by do 3 io_step.
Qed.

Lemma main_second_read_fails p :
  loads_to json_loads (files w) (index_json docs) p ->
  load_fails json_loads (files w) (index_json lk) = true ->
  exists e,
    py_main [prog; lk; docs] w = (w2, Raise e) /\
    (e = FileNotFoundError \/ e = JSONDecodeError).
Proof.
  intros Hp%json_load_ok Hs.
  destruct (json_load_fails w1 (index_json lk) Hs) as (e & Hload & He).
  exists e. split; [|done].
  main_three. by do 4 io_step.
Qed.

Lemma main_merge_raises p s e :
  loads_to json_loads (files w) (index_json docs) p ->
  loads_to json_loads (files w) (index_json lk) s ->
  merge_index p s = Raise e ->
  py_main [prog; lk; docs] w = (w2, Raise e).
Proof.
  intros Hp%json_load_ok Hs Hm.
  apply (json_load_ok w1) in Hs.
  main_three. do 4 io_step. rewrite Hm. by io_step.
Qed.

Let w3 (p' : json) := 
  World (<[index_json docs := json_dumps p']> (files w))
        (trace w2 ++ [EOpen (index_json docs) ModeW]).

Lemma main_len_raises p s p' items ids e :
  loads_to json_loads (files w) (index_json docs) p ->
  loads_to json_loads (files w) (index_json lk) s ->
  merge_index p s = Ok (p', items, ids) ->
  py_len items = Raise e ->
  py_main [prog; lk; docs] w = (w3 p', Raise e).
Proof.
  intros Hp%json_load_ok Hs Hm Hlen.
  apply (json_load_ok w1) in Hs.
  main_three. do 4 io_step. rewrite Hm. do 2 io_step. rewrite Hlen.
  by io_step.
Qed.

Lemma main_success p s p' items ids count :
  loads_to json_loads (files w) (index_json docs) p ->
  loads_to json_loads (files w) (index_json lk) s ->
  merge_index p s = Ok (p', items, ids) ->
  py_len items = Ok count ->
  py_main [prog; lk; docs] w =
    (log (EPrint ("Archive identifiers: " +:+ py_str ids))
       (log (EPrint ("Merged " +:+ pretty count +:+ " ListKit entries into "
                     +:+ index_json docs))
          (w3 p')),
     Ok tt).
Proof.
  intros Hp%json_load_ok Hs Hm Hlen.
  apply (json_load_ok w1) in Hs.
  main_three. do 4 io_step. rewrite Hm. do 2 io_step. rewrite Hlen.
  by do 2 io_step.
Qed.

End ThreeArguments.

(** Every run with two arguments ends in one of two ways: an exception
    before anything is written, or a write of the merged document followed
    by the report. *)
Lemma main_outcome prog lk docs w w' r :
  py_main [prog; lk; docs] w = (w', r) ->
  (files w' = files w /\ written w' = written w /\
   exists e, r = Raise e /\
     (((load_fails json_loads (files w) (index_json docs) = true \/
        load_fails json_loads (files w) (index_json lk) = true) /\
       (e = FileNotFoundError \/ e = JSONDecodeError)) \/
      (exists p s,
         loads_to json_loads (files w) (index_json docs) p /\
         loads_to json_loads (files w) (index_json lk) s /\
         merge_index p s = Raise e))) \/
  (exists p s p' items ids,
     loads_to json_loads (files w) (index_json docs) p /\
     loads_to json_loads (files w) (index_json lk) s /\
     merge_index p s = Ok (p', items, ids) /\
     files w' = <[index_json docs := json_dumps p']> (files w) /\
     written w' = written w ++ [index_json docs] /\
     (r = Ok tt \/ exists e, r = Raise e /\ py_len items = Raise e)).
Proof.
  intros Hrun.
  destruct (load_cases (files w) (index_json docs)) as [F1|[p Hp]].
  { destruct (main_first_read_fails prog lk docs w F1) as (e & Hmain & He).
    rewrite Hmain in Hrun. injection Hrun as <- <-.
    rewrite written_log, app_nil_r. left. split_and!; eauto 8. }
  destruct (load_cases (files w) (index_json lk)) as [F2|[s Hs]].
  { destruct (main_second_read_fails prog lk docs w p Hp F2)
      as (e & Hmain & He).
    rewrite Hmain in Hrun. injection Hrun as <- <-.
    rewrite !written_log, !app_nil_r. left. split_and!; eauto 8. }
  destruct (merge_index p s) as [[[p' items] ids]|e] eqn:Hm.
  - right. exists p, s, p', items, ids.
    destruct (py_len items) as [count|e] eqn:Hlen.
    + rewrite (main_success prog lk docs w p s p' items ids count)
        in Hrun by done.
      injection Hrun as <- <-. split_and!; auto.
      rewrite !written_log, !app_nil_r.
      unfold written. simpl. rewrite !omap_app. simpl.
      by rewrite !app_nil_r.
    + rewrite (main_len_raises prog lk docs w p s p' items ids e)
        in Hrun by done.
      injection Hrun as <- <-. split_and!; eauto.
      unfold written. simpl. rewrite !omap_app. simpl.
      by rewrite !app_nil_r.
  - rewrite (main_merge_raises prog lk docs w p s e) in Hrun by done.
    injection Hrun as <- <-. rewrite !written_log, !app_nil_r.
    left. split_and!; eauto 10.
Qed.

(** ** Failure before the write *)

(** C3.  In a run with two arguments: if reading or parsing either index
    file fails, the run ends in that exception with every file as it was
    and no file opened for writing; and whenever a file differs afterwards
    or was opened for writing, both reads and the whole in-memory merge
    had succeeded, and the one file written is the primary index. *)
Theorem failed_read_writes_nothing prog lk docs w w' r :
  py_main [prog; lk; docs] w = (w', r) ->
  (load_fails json_loads (files w) (index_json docs) = true \/
   load_fails json_loads (files w) (index_json lk) = true ->
   (r = Raise FileNotFoundError \/ r = Raise JSONDecodeError) /\
   files w' = files w /\ written w' = written w) /\
  (files w' <> files w \/ written w' <> written w ->
   exists p s p' items ids,
     loads_to json_loads (files w) (index_json docs) p /\
     loads_to json_loads (files w) (index_json lk) s /\
     merge_index p s = Ok (p', items, ids) /\
     files w' = <[index_json docs := json_dumps p']> (files w) /\
     written w' = written w ++ [index_json docs]).
Proof.
  intros Hrun.
  destruct (main_outcome prog lk docs w w' r Hrun)
    as [(Hf & Hw & e & -> & Hwhy)
       |(p & s & p' & items & ids & Hp & Hs & Hm & Hf & Hw & _)].
  - split.
    + intros Hfail. split; [|done].
      destruct Hwhy as [[_ [-> | ->]]|(p & s & Hp & Hs & _)]; auto.
      apply loads_to_not_fails in Hp, Hs. rewrite Hp, Hs in Hfail.
      by destruct Hfail.
    + intros [?|?]; done.
  - split.
    + apply loads_to_not_fails in Hp, Hs. rewrite Hp, Hs. intros [?|?]; done.
    + intros _. exists p, s, p', items, ids. done.
Qed.

(** ** Usage errors and the exit status *)

(** C8.  With any number of arguments other than two, the run prints the
    usage line, exits with status 1 and opens no file.  With two arguments,
    readable index files and documents of the expected shape, it exits
    with status 0. *)
Theorem usage_error_or_exit_zero prog args w :
  (length args <> 2 ->
   py_run (prog :: args) w = (log (EPrint (usage_line prog)) w, 1%Z) /\
   stdout (log (EPrint (usage_line prog)) w) = stdout w ++ [usage_line prog] /\
   opened (log (EPrint (usage_line prog)) w) = opened w /\
   files (log (EPrint (usage_line prog)) w) = files w) /\
  (forall lk docs p s,
     args = [lk; docs] ->
     loads_to json_loads (files w) (index_json docs) p ->
     loads_to json_loads (files w) (index_json lk) s ->
     well_shaped p s = true ->
     snd (py_run (prog :: args) w) = 0%Z).
Proof.
  split.
  - intros Hlen. unfold run. rewrite main_usage by done. split_and!; try done.
    + by rewrite stdout_log.
    + by rewrite opened_log, app_nil_r.
  - intros lk docs p s -> Hp Hs Hws.
    destruct (merge_index_total p s Hws)
      as (A & B & ls & p' & _ & _ & _ & Hm & _).
    unfold run.
    by rewrite (main_success prog lk docs w p s p' (JArr ls)
                  (strs (A ++ first_new A B)) (length ls)).
Qed.

(** ** The report *)

(** What a run on readable documents of the expected shape prints: the
    length of the secondary's swift sequence and the merged identifier
    list. *)
Lemma report_lines prog lk docs w p s A B ls :
  loads_to json_loads (files w) (index_json docs) p ->
  loads_to json_loads (files w) (index_json lk) s ->
  well_shaped p s = true ->
  doc_ids p = Some A -> doc_ids s = Some B -> doc_items s = Some ls ->
  stdout (fst (py_main [prog; lk; docs] w)) =
    stdout w ++
    ["Merged " +:+ pretty (length ls) +:+ " ListKit entries into "
       +:+ index_json docs;
     "Archive identifiers: " +:+ py_str (strs (A ++ first_new A B))].
Proof.
  intros Hp Hs Hws HA HB Hls.
  destruct (merge_index_total p s Hws)
    as (A' & B' & ls' & p' & HA' & HB' & Hls' & Hm & _).
  assert (A' = A) as -> by congruence.
  assert (B' = B) as -> by congruence.
  assert (ls' = ls) as -> by congruence.
  rewrite (main_success prog lk docs w p s p' (JArr ls)
             (strs (A ++ first_new A B)) (length ls)) by done.
  cbn [fst]. rewrite !stdout_log. unfold stdout at 1. simpl.
  rewrite !omap_app. simpl. by rewrite !app_nil_r, <- app_assoc.
Qed.

(** C9 fails on the code.  The primary has an empty swift sequence and the
    secondary two top-level nodes: nothing is merged into the navigator
    tree, the document written has the empty sequence it had, and the run
    still reports two merged entries. *)
Theorem reported_count_without_merge prog lk docs w :
  loads_to json_loads (files w) (index_json docs) empty_doc ->
  loads_to json_loads (files w) (index_json lk) listkit_doc ->
  exists w',
    py_run [prog; lk; docs] w = (w', 0%Z) /\
    stdout w' =
      stdout w ++
      ["Merged 2 ListKit entries into " +:+ index_json docs;
       "Archive identifiers: " +:+
         py_str (strs ["com.listkit.Lists"; "com.listkit.ListKit"])] /\
    files w' =
      <[index_json docs :=
          json_dumps (index_doc ["com.listkit.Lists"; "com.listkit.ListKit"] [])]>
        (files w).
Proof.
  intros Hp Hs. eexists. split_and!.
  - unfold run.
    rewrite (main_success prog lk docs w empty_doc listkit_doc
               (index_doc ["com.listkit.Lists"; "com.listkit.ListKit"] [])
               (JArr [node "Y" []; node "Z" []])
               (strs ["com.listkit.Lists"; "com.listkit.ListKit"]) 2)
      by done.
    reflexivity.
  - rewrite !stdout_log. unfold stdout at 1. simpl.
    rewrite !omap_app. simpl. by rewrite !app_nil_r, <- app_assoc.
  - reflexivity.
Qed.

(** ** The identifier key in the written document *)

(** C10.  After a run that returns normally, the primary index file holds
    the serialisation of the document the merge returned, and that document
    has the identifier key with the merged identifier list as its value:
    the list the merge returned, which for identifier lists [A] and [B] is
    [A] followed by the first occurrences in [B] of what is not in [A].
    When neither input document had the key, the value is the empty
    list. *)
Theorem identifiers_key_always_written prog lk docs w w' :
  py_main [prog; lk; docs] w = (w', Ok tt) ->
  exists p s p' items ids,
    loads_to json_loads (files w) (index_json docs) p /\
    loads_to json_loads (files w) (index_json lk) s /\
    merge_index p s = Ok (p', items, ids) /\
    files w' !! index_json docs = Some (json_dumps p') /\
    obj_lookup p' ids_key = Some ids /\
    (forall A B, doc_ids p = Some A -> doc_ids s = Some B ->
                 ids = strs (A ++ first_new A B)) /\
    (obj_lookup p ids_key = None -> obj_lookup s ids_key = None ->
     ids = JArr []).
Proof.
  intros Hrun.
  destruct (main_outcome prog lk docs w w' _ Hrun)
    as [(_ & _ & e & [=] & _)
       |(p & s & p' & items & ids & Hp & Hs & Hm & Hf & _)].
  destruct (merge_index_ids_key p s p' items ids Hm) as [Hkey Hdef].
  exists p, s, p', items, ids. split_and!; try done.
  - rewrite Hf. apply lookup_insert_eq.
  - intros A B. by apply merge_index_ids_merged with p' items.
Qed.

End Process.

(** ** The process theorems on the sample host *)

Lemma failed_read_writes_nothing_witness :
  snd (main sample_loads sample_dumps sample_str sample_argv
         (sample_world "lists" "{ not json")) = Raise JSONDecodeError /\
  files (fst (main sample_loads sample_dumps sample_str sample_argv
                (sample_world "lists" "{ not json")))
    = files (sample_world "lists" "{ not json") /\
  written (fst (main sample_loads sample_dumps sample_str sample_argv
                  (sample_world "lists" "{ not json"))) = [].
Proof.
  destruct (failed_read_writes_nothing sample_loads sample_dumps sample_str
              "merge-docs-index.py" "ListKit.doccarchive" "docs"
              (sample_world "lists" "{ not json")
              (fst (main sample_loads sample_dumps sample_str sample_argv
                      (sample_world "lists" "{ not json")))
              (snd (main sample_loads sample_dumps sample_str sample_argv
                      (sample_world "lists" "{ not json"))))
    as [Hfail _]; [reflexivity|].
  destruct Hfail as ([Hr|Hr] & Hf & Hw); [right; reflexivity|discriminate Hr|].
  split_and!; [exact Hr|exact Hf|exact Hw].
Defined.

Lemma usage_error_or_exit_zero_witness :
  run sample_loads sample_dumps sample_str
      ["merge-docs-index.py"; "docs"] (sample_world "lists" "listkit") =
    (World (files (sample_world "lists" "listkit"))
           [EPrint "Usage: merge-docs-index.py <listkit-doccarchive> <docs-dir>"],
     1%Z) /\
  snd (run sample_loads sample_dumps sample_str sample_argv
           (sample_world "lists" "listkit")) = 0%Z.
Proof.
  split.
  - apply (proj1 (usage_error_or_exit_zero sample_loads sample_dumps
                    sample_str "merge-docs-index.py" ["docs"]
                    (sample_world "lists" "listkit"))).
    simpl. lia.
  - apply (proj2 (usage_error_or_exit_zero sample_loads sample_dumps
                    sample_str "merge-docs-index.py"
                    ["ListKit.doccarchive"; "docs"]
                    (sample_world "lists" "listkit"))
                 "ListKit.doccarchive" "docs" lists_doc listkit_doc);
      try reflexivity.
    + exists "lists". split; reflexivity.
    + exists "listkit". split; reflexivity.
Defined.

Lemma reported_count_without_merge_witness :
  exists w',
    run sample_loads sample_dumps sample_str sample_argv
        (sample_world "empty" "listkit") = (w', 0%Z) /\
    stdout w' =
      ["Merged 2 ListKit entries into docs/index/index.json";
       "Archive identifiers: ['com.listkit.Lists', 'com.listkit.ListKit']"].
Proof.
  destruct (reported_count_without_merge sample_loads sample_dumps sample_str
              "merge-docs-index.py" "ListKit.doccarchive" "docs"
              (sample_world "empty" "listkit"))
    as (w' & Hrun & Hout & _).
  - exists "empty". split; reflexivity.
  - exists "listkit". split; reflexivity.
  - exists w'. split; [exact Hrun|exact Hout].
Defined.

Lemma identifiers_key_always_written_witness :
  (exists p',
     files (fst (main sample_loads sample_dumps sample_str sample_argv
                   (sample_world "bare" "bare")))
       !! "docs/index/index.json" = Some (sample_dumps p') /\
     obj_lookup p' ids_key = Some (JArr [])) /\
  (exists p',
     files (fst (main sample_loads sample_dumps sample_str sample_argv
                   (sample_world "lists" "listkit")))
       !! "docs/index/index.json" = Some (sample_dumps p') /\
     obj_lookup p' ids_key =
       Some (strs ["com.listkit.Lists"; "com.listkit.ListKit"])).
Proof.
  split.
  - destruct (identifiers_key_always_written sample_loads sample_dumps
                sample_str "merge-docs-index.py" "ListKit.doccarchive" "docs"
                (sample_world "bare" "bare")
                (fst (main sample_loads sample_dumps sample_str sample_argv
                        (sample_world "bare" "bare"))))
      as (p & s & p' & items & ids & Hp & Hs & _ & Hf & Hkey & _ & Hdef);
      [reflexivity|].
    destruct Hp as (tp & Htp & Hlp). vm_compute in Htp. injection Htp as <-.
    vm_compute in Hlp. injection Hlp as <-.
    destruct Hs as (ts & Hts & Hls). vm_compute in Hts. injection Hts as <-.
    vm_compute in Hls. injection Hls as <-.
    exists p'. split; [exact Hf|].
    rewrite Hkey. f_equal. apply Hdef; reflexivity.
  - destruct (identifiers_key_always_written sample_loads sample_dumps
                sample_str "merge-docs-index.py" "ListKit.doccarchive" "docs"
                (sample_world "lists" "listkit")
                (fst (main sample_loads sample_dumps sample_str sample_argv
                        (sample_world "lists" "listkit"))))
      as (p & s & p' & items & ids & Hp & Hs & _ & Hf & Hkey & Hids & _);
      [reflexivity|].
    destruct Hp as (tp & Htp & Hlp). vm_compute in Htp. injection Htp as <-.
    vm_compute in Hlp. injection Hlp as <-.
    destruct Hs as (ts & Hts & Hls). vm_compute in Hts. injection Hts as <-.
    vm_compute in Hls. injection Hls as <-.
    exists p'. split; [exact Hf|].
    rewrite Hkey. f_equal.
    apply (Hids ["com.listkit.Lists"] ["com.listkit.ListKit"]); reflexivity.
Defined.

(** * Further properties of the script *)

(** ** Association lists, continued *)

Lemma assoc_set_same k v m : assoc_get k m = Some v -> assoc_set k v m = m.
Proof.
  induction m as [|[k' v'] m IH]; simpl; [done|].
  destruct (String.eqb k k') eqn:E.
  - apply String.eqb_eq in E. by intros [= ->]; subst.
  - intros H. by rewrite IH.
Qed.

Lemma assoc_set_keys k v m :
  (assoc_set k v m).*1 =
  match assoc_get k m with
  | Some _ => m.*1
  | None => m.*1 ++ [k]
  end.
Proof.
  induction m as [|[k' v'] m IH]; csimpl; [done|].
  destruct (String.eqb k k') eqn:E; csimpl.
  - apply String.eqb_eq in E. by subst.
  - rewrite IH. by destruct (assoc_get k m).
Qed.

Lemma first_new_subset B : forall A x, x ∈ first_new A B -> x ∈ B.
Proof.
  induction B as [|b B IH]; intros A x.
  - by unfold first_new.
  - rewrite first_new_cons. destruct (decide (b ∈ A)).
    + intros H%IH. by right.
    + intros [->|H%IH]%elem_of_cons; [left|by right].
Qed.

Lemma first_new_length B : forall A, length (first_new A B) <= length B.
Proof.
  induction B as [|b B IH]; intros A; [done|].
  rewrite first_new_cons. destruct (decide (b ∈ A)); simpl.
  - specialize (IH A). lia.
  - specialize (IH (A ++ [b])). lia.
Qed.

(** ** The identifier loop on lists of arbitrary values *)

Lemma append_missing_list elems : forall l,
  exists l',
    append_missing (JArr l) elems = Ok (JArr (l ++ l')) /\
    l' `sublist_of` elems.
Proof.
  induction elems as [|x elems IH]; intros l.
  - exists []. by rewrite app_nil_r.
  - cbn [append_missing py_in mbind result_bind].
    destruct (existsb _ l); cbn [negb].
    + destruct (IH l) as (l' & -> & Hsub). exists l'. split; [done|].
      by apply sublist_cons.
    + cbn [list_append mbind result_bind].
      destruct (IH (l ++ [x])) as (l' & -> & Hsub). exists (x :: l').
      split; [by rewrite <- app_assoc|]. by apply sublist_skip.
Qed.

(** ** What a successful navigator merge looks like, on any input *)

Lemma merge_navigator_inv p1 s p' items :
  merge_navigator p1 s = Ok (p', items) ->
  p' = p1 \/
  exists m langs l root',
    p1 = JObj m /\
    assoc_get langs_key m = Some (JObj langs) /\
    assoc_get swift_key langs = Some (JArr l) /\
    l <> [] /\
    p' = JObj (assoc_set langs_key
                 (JObj (assoc_set swift_key (JArr (<[0%nat := root']> l)) langs))
                 m).
Proof.
  unfold merge_navigator. intros H. bind_inv H.
  destruct (truthy _ && truthy _) eqn:Ht.
  2: { left. by injection H as <- <-. }
  apply andb_true_iff in Ht as [Ht _]. bind_inv H. injection H as <- <-.
  right.
  destruct p1 as [| | | | |m]; try discriminate.
  destruct a1 as [| | | | |langs]; try discriminate.
  destruct a2 as [| | | |l|]; try discriminate.
  destruct l as [|root l]; [discriminate|].
  injection E7 as <-. injection E8 as <-. injection E9 as <-.
  simpl in E1, E2.
  destruct (assoc_get langs_key m) as [v|] eqn:Hm.
  - injection E1 as ->.
    destruct (assoc_get swift_key langs) as [v|] eqn:Hl.
    + injection E2 as ->. exists m, langs, (root :: l), a6. done.
    + by injection E2.
  - injection E1 as <-. simpl in E2. by injection E2.
Qed.

(** ** What the merge leaves alone *)

(** X1.  Whatever the two documents look like, a merge that raises nothing
    leaves every top-level field of the primary other than the identifier
    list and the languages as it was. *)
Theorem other_keys_untouched p s p' items ids :
  merge_index p s = Ok (p', items, ids) ->
  forall k, k <> ids_key -> k <> langs_key ->
            obj_lookup p' k = obj_lookup p k.
Proof.
  unfold merge_index. intros H k Hk1 Hk2. bind_inv H. injection H as <- <- <-.
  destruct (merge_identifiers_inv _ _ _ _ E) as (m & -> & -> & _).
  rewrite (merge_navigator_frame _ _ _ _ E0) by done.
  simpl. by apply assoc_get_set_ne.
Qed.

Lemma other_keys_untouched_witness :
  exists p' items ids,
    merge_index (JObj [("schemaVersion", JInt 0); (ids_key, strs twice_lists)])
                listkit_doc = Ok (p', items, ids) /\
    obj_lookup p' "schemaVersion" = Some (JInt 0).
Proof.
  eexists _, _, _. split; [reflexivity|].
  etrans.
  - eapply (other_keys_untouched
              (JObj [("schemaVersion", JInt 0); (ids_key, strs twice_lists)])
              listkit_doc); [reflexivity|discriminate|discriminate].
  - reflexivity.
Defined.

(** X2.  A merge that raises nothing keeps the order of the primary's
    top-level keys; the identifier key stays where it was, or becomes the
    last key when the primary did not have it. *)
Theorem key_order_kept p s p' items ids :
  merge_index p s = Ok (p', items, ids) ->
  doc_keys p' =
  match obj_lookup p ids_key with
  | Some _ => doc_keys p
  | None => doc_keys p ++ [ids_key]
  end.
Proof.
  unfold merge_index. intros H. bind_inv H. injection H as <- <- <-.
  destruct (merge_identifiers_inv _ _ _ _ E) as (m & -> & -> & _).
  destruct (merge_navigator_inv _ _ _ _ E0)
    as [->|(m1 & langs & l & root' & [= <-] & Hl & _ & _ & ->)].
  - simpl. apply assoc_set_keys.
  - simpl. rewrite assoc_set_keys, Hl. apply assoc_set_keys.
Qed.

Lemma key_order_kept_witness :
  exists p' items ids,
    merge_index bare_doc listkit_doc = Ok (p', items, ids) /\
    doc_keys p' = ["schemaVersion"; ids_key].
Proof.
  eexists _, _, _. split; [reflexivity|].
  etrans.
  - eapply (key_order_kept bare_doc listkit_doc). reflexivity.
  - reflexivity.
Defined.

(** X3.  A merge that raises nothing leaves the entry of every language
    other than swift as it was. *)
Theorem other_languages_untouched p s p' items ids :
  merge_index p s = Ok (p', items, ids) ->
  forall lang, lang <> swift_key -> lang_entry p' lang = lang_entry p lang.
Proof.
  unfold merge_index. intros H lang Hlang. bind_inv H.
  injection H as <- <- <-.
  destruct (merge_identifiers_inv _ _ _ _ E) as (m & -> & -> & _).
  assert (assoc_get langs_key (assoc_set ids_key j0 m) = assoc_get langs_key m)
    as Hsame by apply assoc_get_set_ne, ids_key_not_langs.
  destruct (merge_navigator_inv _ _ _ _ E0)
    as [->|(m1 & langs & l & root' & [= <-] & Hl & _ & _ & ->)].
  - unfold lang_entry. simpl. by rewrite Hsame.
  - unfold lang_entry. simpl. rewrite assoc_get_set_eq.
    rewrite <- Hsame, Hl. simpl. apply assoc_get_set_ne. congruence.
Qed.

Lemma other_languages_untouched_witness :
  exists p' items ids,
    merge_index
      (JObj [(langs_key, JObj [("occ", JArr [node "ObjC" []]);
                               (swift_key, JArr [node "Lists" []])])])
      listkit_doc = Ok (p', items, ids) /\
    lang_entry p' "occ" = Some (JArr [node "ObjC" []]).
Proof.
  eexists _, _, _. split; [reflexivity|].
  etrans.
  - eapply (other_languages_untouched
              (JObj [(langs_key, JObj [("occ", JArr [node "ObjC" []]);
                                       (swift_key, JArr [node "Lists" []])])])
              listkit_doc); [reflexivity|discriminate].
  - reflexivity.
Defined.

(** ** Identifiers: what the merged list contains *)

(** X4.  The merged identifier list starts with the primary's list,
    contains exactly the identifiers that occur in one of the two lists,
    and is no longer than the two together. *)
Theorem merged_identifiers_union p s A B :
  doc_ids p = Some A -> doc_ids s = Some B ->
  exists p' M,
    merge_identifiers p s = Ok (p', strs M) /\
    A `prefix_of` M /\
    (forall x, x ∈ M <-> x ∈ A \/ x ∈ B) /\
    length M <= length A + length B.
Proof.
  intros Hp Hs.
  destruct (merge_identifiers_shape p s A B Hp Hs) as (m & -> & Hm).
  eexists _, (A ++ first_new A B). split_and!; [exact Hm| | |].
  - by apply prefix_app_r.
  - intros x. rewrite elem_of_app. split.
    + intros [?|?%first_new_subset]; auto.
    + intros [?|HB]; [by left|].
      by apply elem_of_app, first_new_complete.
  - rewrite length_app. pose proof (first_new_length B A). lia.
Qed.

Lemma merged_identifiers_union_witness :
  exists p' M,
    merge_identifiers lists_doc listkit_doc = Ok (p', strs M) /\
    ["com.listkit.Lists"] `prefix_of` M /\
    "com.listkit.ListKit" ∈ M.
Proof.
  destruct (merged_identifiers_union lists_doc listkit_doc
              ["com.listkit.Lists"] ["com.listkit.ListKit"])
    as (p' & M & Hm & Hpre & Hin & _); [reflexivity|reflexivity|].
  exists p', M. split_and!; [exact Hm|exact Hpre|].
  apply Hin. right. left.
Defined.

(** X5.  When the primary has the identifier key and every identifier of
    the secondary is already in its list, the identifier merge returns the
    primary document itself, unchanged. *)
Theorem no_new_identifiers_is_noop p s A B :
  doc_ids p = Some A -> doc_ids s = Some B ->
  is_Some (obj_lookup p ids_key) ->
  (forall b, b ∈ B -> b ∈ A) ->
  merge_identifiers p s = Ok (p, strs A).
Proof.
  intros Hp Hs [v Hv] Hsub.
  destruct (merge_identifiers_shape p s A B Hp Hs) as (m & -> & Hm).
  rewrite first_new_covered, app_nil_r in Hm by done.
  rewrite Hm. do 3 f_equal. apply assoc_set_same.
  simpl in Hp, Hv. rewrite Hv in Hp |- *.
  destruct v; try done. apply as_strs_Some in Hp. by subst.
Qed.

Lemma no_new_identifiers_is_noop_witness :
  merge_identifiers
    (index_doc ["com.listkit.Lists"; "com.listkit.ListKit"] [])
    listkit_doc =
  Ok (index_doc ["com.listkit.Lists"; "com.listkit.ListKit"] [],
      strs ["com.listkit.Lists"; "com.listkit.ListKit"]).
Proof.
  apply (no_new_identifiers_is_noop _ listkit_doc
           ["com.listkit.Lists"; "com.listkit.ListKit"]
           ["com.listkit.ListKit"]); try reflexivity.
  - eexists. reflexivity.
  - intros b ->%list_elem_of_singleton. right. left.
Defined.

(** X6.  The identifier merge raises nothing as soon as both identifier
    fields are lists (or absent), whatever their elements are: it keeps the
    primary's list as a prefix and appends some of the secondary's
    elements, in their order. *)
Theorem identifier_values_need_not_be_strs p s l ls :
  ids_raw p = Some l -> ids_raw s = Some ls ->
  exists p' l',
    merge_identifiers p s = Ok (p', JArr (l ++ l')) /\
    l' `sublist_of` ls /\
    obj_lookup p' ids_key = Some (JArr (l ++ l')).
Proof.
  intros Hp Hs.
  destruct p as [| | | | |m]; try done. destruct s as [| | | | |ms]; try done.
  simpl in Hp, Hs.
  assert (dict_get (JObj m) ids_key (JArr []) = Ok (JArr l)) as Hgp.
  { simpl. destruct (assoc_get ids_key m) as [[]|]; try done;
      by injection Hp as ->. }
  assert (dict_get (JObj ms) ids_key (JArr []) = Ok (JArr ls)) as Hgs.
  { simpl. destruct (assoc_get ids_key ms) as [[]|]; try done;
      by injection Hs as ->. }
  destruct (append_missing_list ls l) as (l' & Hloop & Hsub).
  eexists _, l'. unfold merge_identifiers. rewrite Hgp, Hgs.
  cbn [mbind result_bind py_iter]. rewrite Hloop.
  cbn [mbind result_bind dict_setitem]. split_and!; [done|done|].
  simpl. apply assoc_get_set_eq.
Qed.

Lemma identifier_values_need_not_be_strs_witness :
  exists p' l',
    merge_identifiers (JObj [(ids_key, JArr [JInt 1; JNull])])
                      (JObj [(ids_key, JArr [JBool true; JStr "a"])])
      = Ok (p', JArr ([JInt 1; JNull] ++ l')) /\
    l' `sublist_of` [JBool true; JStr "a"].
Proof.
  destruct (identifier_values_need_not_be_strs
              (JObj [(ids_key, JArr [JInt 1; JNull])])
              (JObj [(ids_key, JArr [JBool true; JStr "a"])])
              [JInt 1; JNull] [JBool true; JStr "a"])
    as (p' & l' & Hm & Hsub & _); [reflexivity|reflexivity|].
  exists p', l'. split; [exact Hm|exact Hsub].
Defined.

(** ** Running the merge again when no navigator merge takes place *)

(** X7.  When the swift sequence of either document is empty or absent,
    a second merge of the same secondary returns the document of the first
    merge unchanged: the merged document is a fixed point. *)
Theorem skipped_navigator_fixed_point p s A B lp ls :
  doc_ids p = Some A -> doc_ids s = Some B ->
  doc_items p = Some lp -> doc_items s = Some ls ->
  lp = [] \/ ls = [] ->
  exists p1 ids,
    merge_index p s = Ok (p1, JArr ls, ids) /\
    merge_index p1 s = Ok (p1, JArr ls, ids).
Proof.
  intros Hp Hs Hlp Hls Hempty.
  destruct (merge_index_skip p s A B Hp Hs lp ls Hlp Hls Hempty)
    as (m & -> & Hm).
  set (M := A ++ first_new A B) in *.
  destruct (merge_index_skip (JObj (assoc_set ids_key (strs M) m)) s M B
              (doc_ids_set m M) Hs lp ls) as (m1 & [= <-] & Hm1); try done.
  { by rewrite doc_items_set_other by apply ids_key_not_langs. }
  rewrite first_new_covered, app_nil_r, assoc_set_set in Hm1
    by (intros b Hb; by apply first_new_complete).
  eauto.
Qed.

Lemma skipped_navigator_fixed_point_witness :
  exists p1 ids,
    merge_index empty_doc listkit_doc =
      Ok (p1, JArr [node "Y" []; node "Z" []], ids) /\
    merge_index p1 listkit_doc =
      Ok (p1, JArr [node "Y" []; node "Z" []], ids).
Proof.
  apply (skipped_navigator_fixed_point empty_doc listkit_doc
           ["com.listkit.Lists"] ["com.listkit.ListKit"]
           [] [node "Y" []; node "Z" []]); try reflexivity.
  by left.
Defined.

(** ** Documents of the wrong shape *)

(** X8.  When both swift sequences are non-empty but the first node of the
    primary is not an object, or its children are not a list, the merge
    raises [AttributeError]. *)
Theorem malformed_root_raises p s A B root rest y ys :
  doc_ids p = Some A -> doc_ids s = Some B ->
  doc_items p = Some (root :: rest) -> doc_items s = Some (y :: ys) ->
  node_children root = None ->
  merge_index p s = Raise AttributeError.
Proof.
  intros Hp Hs Hlp Hls Hroot.
  destruct (merge_identifiers_shape p s A B Hp Hs) as (m & -> & Hm).
  unfold merge_index. rewrite Hm. cbn [mbind result_bind].
  rewrite <- (doc_items_set_other ids_key (strs (A ++ first_new A B)) m)
    in Hlp by apply ids_key_not_langs.
  apply doc_items_get in Hlp as (m1 & langs & [= <-] & Hl & Hi & _).
  apply doc_items_get in Hls as (ms & langss & -> & Hls & His & _).
  unfold merge_navigator. rewrite Hls. cbn [mbind result_bind].
  rewrite His. cbn [mbind result_bind]. rewrite Hl. cbn [mbind result_bind].
  rewrite Hi. cbn [mbind result_bind truthy andb getitem0 lookup list_lookup].
  destruct root as [| | | | |rm]; try done.
  simpl in Hroot |- *.
  destruct (assoc_get children_key rm) as [[]|]; done.
Qed.

Lemma malformed_root_raises_witness :
  merge_index (index_doc ["com.listkit.Lists"] [JStr "Lists"]) listkit_doc
    = Raise AttributeError.
Proof.
  apply (malformed_root_raises _ listkit_doc
           ["com.listkit.Lists"] ["com.listkit.ListKit"]
           (JStr "Lists") [] (node "Y" []) [node "Z" []]); reflexivity.
Defined.

(** ** Every run, step by step *)

Section Runs.

Context (json_loads : string -> option json).
Context (json_dumps : json -> string).
Context (py_str : json -> string).

Local Abbreviation py_main := (main json_loads json_dumps py_str).
Local Abbreviation py_run := (run json_loads json_dumps py_str).

(** The trace and the files after a run with two arguments. *)
Lemma main_cases prog lk docs w w' r :
  py_main [prog; lk; docs] w = (w', r) ->
  (files w' = files w /\ (exists e, r = Raise e) /\
   ((trace w' = trace w ++ [EOpen (index_json docs) ModeR] /\
     load_fails json_loads (files w) (index_json docs) = true) \/
    (trace w' = trace w ++ [EOpen (index_json docs) ModeR;
                            EOpen (index_json lk) ModeR] /\
     load_fails json_loads (files w) (index_json docs) = false))) \/
  (exists p',
     files w' = <[index_json docs := json_dumps p']> (files w) /\
     load_fails json_loads (files w) (index_json docs) = false /\
     ((trace w' = trace w ++ [EOpen (index_json docs) ModeR;
                              EOpen (index_json lk) ModeR;
                              EOpen (index_json docs) ModeW] /\
       exists e, r = Raise e) \/
      (exists l1 l2,
         trace w' = trace w ++ [EOpen (index_json docs) ModeR;
                                EOpen (index_json lk) ModeR;
                                EOpen (index_json docs) ModeW;
                                EPrint l1; EPrint l2] /\
         r = Ok tt))).
Proof.
  intros Hrun.
  destruct (load_cases json_loads (files w) (index_json docs)) as [F1|[p Hp]].
  { destruct (main_first_read_fails json_loads json_dumps py_str
                prog lk docs w F1) as (e & Hmain & _).
    rewrite Hmain in Hrun. injection Hrun as <- <-. left. eauto 8. }
  pose proof (loads_to_not_fails _ _ _ _ Hp) as Hnf.
  destruct (load_cases json_loads (files w) (index_json lk)) as [F2|[s Hs]].
  { destruct (main_second_read_fails json_loads json_dumps py_str
                prog lk docs w p Hp F2) as (e & Hmain & _).
    rewrite Hmain in Hrun. injection Hrun as <- <-. left.
    split_and!; [done|eauto|]. right. simpl. by rewrite <- app_assoc. }
  destruct (merge_index p s) as [[[p' items] ids]|e] eqn:Hm.
  - right. exists p'.
    destruct (py_len items) as [count|e] eqn:Hlen.
    + rewrite (main_success json_loads json_dumps py_str
                 prog lk docs w p s p' items ids count) in Hrun by done.
      injection Hrun as <- <-. split_and!; [done|done|]. right. eexists _, _.
      split; [|done]. simpl. by rewrite <- !app_assoc.
    + rewrite (main_len_raises json_loads json_dumps py_str
                 prog lk docs w p s p' items ids e) in Hrun by done.
      injection Hrun as <- <-. split_and!; [done|done|]. left.
      split; [|eauto]. simpl. by rewrite <- !app_assoc.
  - rewrite (main_merge_raises json_loads json_dumps py_str
               prog lk docs w p s e) in Hrun by done.
    injection Hrun as <- <-. left.
    split_and!; [done|eauto|]. right. simpl. by rewrite <- app_assoc.
Qed.

Lemma arity_cases (sys_argv : list string) :
  length sys_argv <> 3 \/ exists prog lk docs, sys_argv = [prog; lk; docs].
Proof.
  destruct sys_argv as [|prog [|lk [|docs [|x rest]]]]; simpl; eauto; left; lia.
Qed.

(** X9.  A run with two arguments opens the primary index for reading,
    then the secondary for reading, then the primary for writing, and
    stops somewhere along that list: when the primary cannot be read the
    secondary is never opened, and a run that returns normally has opened
    all three. *)
Theorem files_opened_in_order prog lk docs w w' r :
  py_main [prog; lk; docs] w = (w', r) ->
  exists n,
    1 <= n <= 3 /\
    opened w' = opened w ++ take n (opens_of_run lk docs) /\
    (load_fails json_loads (files w) (index_json docs) = true -> n = 1) /\
    (r = Ok tt -> n = 3).
Proof.
  intros Hrun. unfold opened.
  destruct (main_cases prog lk docs w w' r Hrun)
    as [(_ & (e & ->) & [[-> Hf]|[-> Hf]])
       |(p' & _ & Hf & [[-> (e & ->)]|(l1 & l2 & -> & ->)])];
    rewrite omap_app.
  - exists 1. split_and!; try done; lia.
  - exists 2. split_and!; try done; try lia. by rewrite Hf.
  - exists 3. split_and!; try done; try lia. by rewrite Hf.
  - exists 3. split_and!; try done; try lia. by rewrite Hf.
Qed.

(** X13.  When either index file holds JSON that is not an object, the
    run raises [AttributeError] after the two reads: no file changes,
    nothing is opened for writing and nothing is printed. *)
Theorem non_object_document_aborts prog lk docs w p s :
  loads_to json_loads (files w) (index_json docs) p ->
  loads_to json_loads (files w) (index_json lk) s ->
  is_object p = false \/ is_object s = false ->
  exists w',
    py_main [prog; lk; docs] w = (w', Raise AttributeError) /\
    files w' = files w /\ written w' = written w /\ stdout w' = stdout w.
Proof.
  intros Hp Hs Hobj.
  assert (merge_index p s = Raise AttributeError) as Hm.
  { destruct p as [| | | | |m]; try done.
    destruct Hobj as [?|Hobj]; [done|].
    destruct s as [| | | | |ms]; done. }
  rewrite (main_merge_raises json_loads json_dumps py_str
             prog lk docs w p s AttributeError) by done.
  eexists. split; [done|].
  rewrite !written_log, !stdout_log, !app_nil_r. done.
Qed.

(** No primitive of the merge raises [SystemExit]. *)
Ltac prim_no_exit f :=
  intros H; unfold f in H; cbn [mbind result_bind] in H;
  repeat case_match; simplify_eq; done.

Lemma dict_get_no_exit d k v e :
  dict_get d k v = Raise e -> is_system_exit e = false.
Proof. prim_no_exit dict_get. Qed.

Lemma dict_setitem_no_exit d k v e :
  dict_setitem d k v = Raise e -> is_system_exit e = false.
Proof. prim_no_exit dict_setitem. Qed.

Lemma py_iter_no_exit x e : py_iter x = Raise e -> is_system_exit e = false.
Proof. prim_no_exit py_iter. Qed.

Lemma py_in_no_exit x c e : py_in x c = Raise e -> is_system_exit e = false.
Proof. prim_no_exit py_in. Qed.

Lemma list_append_no_exit l x e :
  list_append l x = Raise e -> is_system_exit e = false.
Proof. prim_no_exit list_append. Qed.

Lemma list_extend_no_exit l it e :
  list_extend l it = Raise e -> is_system_exit e = false.
Proof.
  intros H. unfold list_extend in H. destruct l; simplify_eq; try done.
  destruct (py_iter it) eqn:E; simplify_eq/=. by eapply py_iter_no_exit.
Qed.

Lemma getitem0_no_exit x e : getitem0 x = Raise e -> is_system_exit e = false.
Proof. prim_no_exit getitem0. Qed.

Lemma list_setitem0_no_exit l x e :
  list_setitem0 l x = Raise e -> is_system_exit e = false.
Proof. prim_no_exit list_setitem0. Qed.

Lemma py_len_no_exit x e : py_len x = Raise e -> is_system_exit e = false.
Proof. prim_no_exit py_len. Qed.

Lemma append_missing_no_exit elems : forall archive_ids e,
  append_missing archive_ids elems = Raise e -> is_system_exit e = false.
Proof.
  induction elems as [|x elems IH]; intros archive_ids e H; [done|].
  cbn [append_missing] in H.
  destruct (py_in x archive_ids) as [present|e'] eqn:Ein;
    cbn [mbind result_bind] in H.
  - destruct present; cbn [negb] in H; [by eapply IH|].
    destruct (list_append archive_ids x) as [ids'|e'] eqn:Eapp;
      cbn [mbind result_bind] in H; [by eapply IH|].
    injection H as <-. by eapply list_append_no_exit.
  - injection H as <-. by eapply py_in_no_exit.
Qed.

Create HintDb no_exit.
#[local] Hint Resolve dict_get_no_exit dict_setitem_no_exit py_iter_no_exit
  list_extend_no_exit getitem0_no_exit list_setitem0_no_exit
  append_missing_no_exit : no_exit.

Ltac raise_inv H :=
  repeat match type of H with
  | (?r ≫= _) = Raise _ =>
      let E := fresh "E" in
      destruct r eqn:E; cbn [mbind result_bind] in H;
      [|injection H as <-; eauto with no_exit]
  | (let (_, _) := ?x in _) = Raise _ => destruct x
  end.

Lemma merge_identifiers_no_exit p s e :
  merge_identifiers p s = Raise e -> is_system_exit e = false.
Proof. unfold merge_identifiers. intros H. raise_inv H; done. Qed.

Lemma merge_navigator_no_exit p s e :
  merge_navigator p s = Raise e -> is_system_exit e = false.
Proof.
  unfold merge_navigator. intros H. raise_inv H; try done.
  destruct (truthy _ && truthy _); [|done].
  raise_inv H; done.
Qed.

Lemma merge_index_no_exit p s e :
  merge_index p s = Raise e -> is_system_exit e = false.
Proof.
  unfold merge_index. intros H.
  destruct (merge_identifiers p s) as [[p1 ids]|e'] eqn:E1;
    cbn [mbind result_bind] in H.
  - destruct (merge_navigator p1 s) as [[p2 items]|e'] eqn:E2;
      cbn [mbind result_bind] in H; [done|].
    injection H as <-. by eapply merge_navigator_no_exit.
  - injection H as <-. by eapply merge_identifiers_no_exit.
Qed.

Lemma stdout_success fs w x y z m1 m2 m3 a b :
  stdout (log (EPrint a)
            (log (EPrint b)
               (World fs (trace (log (EOpen x m1) (log (EOpen y m2) w))
                          ++ [EOpen z m3])))) =
  stdout w ++ [b; a].
Proof.
  unfold stdout, log. cbn [trace]. rewrite !omap_app. cbn [omap].
  by rewrite !app_nil_r, <- !app_assoc.
Qed.

Lemma app_singleton_neq {A} (l : list A) x : l ++ [x] <> l.
Proof.
  intros H. apply (f_equal length) in H. rewrite length_app in H.
  simpl in H. lia.
Qed.

Lemma stdout_trace w w' evs :
  trace w' = trace w ++ evs ->
  stdout w' = stdout w ++ stdout (World ∅ evs).
Proof. unfold stdout. intros ->. by rewrite omap_app. Qed.

Lemma written_trace w w' evs :
  trace w' = trace w ++ evs ->
  written w' = written w ++ written (World ∅ evs).
Proof. unfold written. intros ->. by rewrite omap_app. Qed.

(** X10.  In a run with two arguments the report follows the write: every
    line printed comes after the primary index was opened for writing, a
    run that has not opened it has printed nothing, and [print] is called
    at most twice. *)
Theorem report_follows_the_write prog lk docs w w' r :
  py_main [prog; lk; docs] w = (w', r) ->
  exists evs,
    trace w' = trace w ++ evs /\
    (forall pre line post,
       evs = pre ++ EPrint line :: post ->
       EOpen (index_json docs) ModeW ∈ pre) /\
    (written w' = written w -> stdout w' = stdout w) /\
    exists lines, stdout w' = stdout w ++ lines /\ length lines <= 2.
Proof.
  intros Hrun.
  destruct (main_cases prog lk docs w w' r Hrun)
    as [(_ & _ & [[Ht _]|[Ht _]])
       |(p' & _ & _ & [[Ht _]|(l1 & l2 & Ht & _)])];
    eexists; (split; [exact Ht|]);
    rewrite (stdout_trace _ _ _ Ht), (written_trace _ _ _ Ht);
    unfold stdout, written; cbn [trace omap list_omap]; rewrite ?app_nil_r.
  - split_and!; [|done|exists []; split; [by rewrite app_nil_r|simpl; lia]].
    intros pre line post Hevs.
    do 2 (destruct pre as [|? pre]; simplify_eq/=).
  - split_and!; [|done|exists []; split; [by rewrite app_nil_r|simpl; lia]].
    intros pre line post Hevs.
    do 3 (destruct pre as [|? pre]; simplify_eq/=).
  - split_and!; [|done|exists []; split; [by rewrite app_nil_r|simpl; lia]].
    intros pre line post Hevs.
    do 4 (destruct pre as [|? pre]; simplify_eq/=).
  - split_and!.
    + intros pre line post Hevs.
      do 6 (try (destruct pre as [|? pre]; simplify_eq/=)); set_solver.
    + intros H. exfalso. by apply app_singleton_neq in H.
    + exists [l1; l2]. split; [done|simpl; lia].
Qed.

(** X14.  [main] leaves through [sys.exit] only on a wrong number of
    arguments: when a run ends in [SystemExit], the code is 1, the
    argument list does not have three entries, the usage line is the one
    line printed, no file was opened and no file has changed.  Every other
    failure is an ordinary exception. *)
Theorem system_exit_only_on_usage sys_argv w c :
  snd (py_main sys_argv w) = Raise (SystemExit c) ->
  c = 1%Z /\
  length sys_argv <> 3 /\
  (exists prog args,
     sys_argv = prog :: args /\
     stdout (fst (py_main sys_argv w)) = stdout w ++ [usage_line prog]) /\
  opened (fst (py_main sys_argv w)) = opened w /\
  files (fst (py_main sys_argv w)) = files w.
Proof.
  destruct (arity_cases sys_argv) as [Hlen|(prog & lk & docs & ->)].
  - destruct sys_argv as [|prog args]; [done|].
    rewrite main_usage by (simpl in Hlen; lia). cbn [fst snd].
    intros [= <-]. split_and!; try done.
    + exists prog, args. by rewrite stdout_log.
    + by rewrite opened_log, app_nil_r.
  - destruct (py_main [prog; lk; docs] w) as [w' r] eqn:Hrun. cbn [fst snd].
    intros ->. exfalso.
    destruct (main_outcome json_loads json_dumps py_str prog lk docs w w' _
                Hrun)
      as [(_ & _ & e & [= <-] & Hwhy)
         |(p & s & p' & items & ids & _ & _ & _ & _ & _ &
           [[=]|(e & [= <-] & He)])].
    + destruct Hwhy as [[_ [[=]|[=]]]|(p & s & _ & _ & Hm)].
      by apply merge_index_no_exit in Hm.
    + by apply py_len_no_exit in He.
Qed.

End Runs.

(** ** The run theorems on the sample hosts *)

Lemma files_opened_in_order_witness :
  opened (fst (main sample_loads sample_dumps sample_str sample_argv
                 (sample_world "{ not json" "listkit"))) =
  [("docs/index/index.json", ModeR)].
Proof.
  destruct (files_opened_in_order sample_loads sample_dumps sample_str
              "merge-docs-index.py" "ListKit.doccarchive" "docs"
              (sample_world "{ not json" "listkit")
              (fst (main sample_loads sample_dumps sample_str sample_argv
                      (sample_world "{ not json" "listkit")))
              (snd (main sample_loads sample_dumps sample_str sample_argv
                      (sample_world "{ not json" "listkit"))))
    as (n & _ & Hopened & Hfail & _); [reflexivity|].
  rewrite (Hfail eq_refl) in Hopened. exact Hopened.
Defined.

Lemma non_object_document_aborts_witness :
  exists w',
    main array_loads sample_dumps sample_str sample_argv
         (sample_world "lists" "[]") = (w', Raise AttributeError) /\
    files w' = files (sample_world "lists" "[]") /\
    written w' = [] /\ stdout w' = [].
Proof.
  apply (non_object_document_aborts array_loads sample_dumps sample_str
           "merge-docs-index.py" "ListKit.doccarchive" "docs"
           (sample_world "lists" "[]") lists_doc (JArr [])).
  - exists "lists". split; reflexivity.
  - exists "[]". split; reflexivity.
  - right. reflexivity.
Defined.

(** ** The report after a navigator merge *)

Section Report.

Context (json_loads : string -> option json).
Context (json_dumps : json -> string).
Context (py_str : json -> string).

(** X16.  When both swift sequences are non-empty, the run returns
    normally, and the count it prints is the number of children the root
    node gained in the document it wrote; the second line shows the merged
    identifier list. *)
Theorem reported_count_is_growth prog lk docs w p s A B root rest y ys cs :
  loads_to json_loads (files w) (index_json docs) p ->
  loads_to json_loads (files w) (index_json lk) s ->
  doc_ids p = Some A -> doc_ids s = Some B ->
  doc_items p = Some (root :: rest) -> doc_items s = Some (y :: ys) ->
  node_children root = Some cs ->
  exists w' p' root' cs',
    main json_loads json_dumps py_str [prog; lk; docs] w = (w', Ok tt) /\
    files w' !! index_json docs = Some (json_dumps p') /\
    doc_items p' = Some (root' :: rest) /\
    node_children root' = Some cs' /\
    stdout w' =
      stdout w ++
      ["Merged " +:+ pretty (length cs' - length cs)
         +:+ " ListKit entries into " +:+ index_json docs;
       "Archive identifiers: " +:+ py_str (strs (A ++ first_new A B))].
Proof.
  intros Hp Hs HA HB Hlp Hls Hcs.
  destruct (merge_index_append p s A B HA HB root rest y ys cs Hlp Hls Hcs)
    as (p' & root' & Hm & _ & Hitems & Hch & _).
  eexists _, p', root', (cs ++ y :: ys).
  rewrite (main_success json_loads json_dumps py_str prog lk docs w
             p s p' (JArr (y :: ys)) (strs (A ++ first_new A B))
             (length (y :: ys))) by done.
  split_and!; try done.
  - simpl. apply lookup_insert_eq.
  - rewrite stdout_success.
    assert (length (cs ++ y :: ys) - length cs = length (y :: ys)) as ->
      by (rewrite length_app; lia).
    done.
Qed.

End Report.

Lemma reported_count_is_growth_witness :
  exists w' p' root' cs',
    main sample_loads sample_dumps sample_str sample_argv
         (sample_world "lists" "listkit") = (w', Ok tt) /\
    doc_items p' = Some [root'] /\
    node_children root' = Some cs' /\
    stdout w' =
      ["Merged " +:+ pretty (length cs' - 1)
         +:+ " ListKit entries into docs/index/index.json";
       "Archive identifiers: ['com.listkit.Lists', 'com.listkit.ListKit']"].
Proof.
  destruct (reported_count_is_growth sample_loads sample_dumps sample_str
              "merge-docs-index.py" "ListKit.doccarchive" "docs"
              (sample_world "lists" "listkit") lists_doc listkit_doc
              ["com.listkit.Lists"] ["com.listkit.ListKit"]
              (node "Lists" [node "X" []]) [] (node "Y" []) [node "Z" []]
              [node "X" []])
    as (w' & p' & root' & cs' & Hrun & _ & Hi & Hc & Hout); try reflexivity.
  - exists "lists". split; reflexivity.
  - exists "listkit". split; reflexivity.
  - exists w', p', root', cs'. split_and!; assumption.
Defined.

(** ** Runs over files that several paths can name *)

Ltac main_at_three :=
  unfold main_at; cbn [length Nat.eqb negb argv_get lookup list_lookup].

Section Files.

Context (file_of : string -> string).
Context (json_loads : string -> option json).
Context (json_dumps : json -> string).
Context (py_str : json -> string).

Local Abbreviation py_main_at := (main_at file_of json_loads json_dumps py_str).

Lemma loads_to_unique fs path p q :
  loads_to json_loads fs path p -> loads_to json_loads fs path q -> p = q.
Proof. intros (t & Ht & Hp) (u & Hu & Hq). congruence. Qed.

Lemma json_load_at_ok w path doc :
  loads_to json_loads (files w) (file_of path) doc ->
  json_load_at file_of json_loads path w = (log (EOpen path ModeR) w, Ok doc).
Proof.
  intros (text & Hf & Hl). unfold json_load_at. simpl. by rewrite Hf, Hl.
Qed.

Lemma json_load_at_fails w path :
  load_fails json_loads (files w) (file_of path) = true ->
  exists e, json_load_at file_of json_loads path w =
              (log (EOpen path ModeR) w, Raise e).
Proof.
  unfold load_fails, json_load_at. simpl.
  destruct (files w !! file_of path) as [text|]; [|eauto].
  destruct (json_loads text); [done|eauto].
Qed.

(** A run with two arguments that returns normally, on files. *)
Lemma main_at_success prog lk docs w p s p' items ids count :
  loads_to json_loads (files w) (file_of (index_json docs)) p ->
  loads_to json_loads (files w) (file_of (index_json lk)) s ->
  merge_index p s = Ok (p', items, ids) ->
  py_len items = Ok count ->
  py_main_at [prog; lk; docs] w =
    (log (EPrint ("Archive identifiers: " +:+ py_str ids))
       (log (EPrint ("Merged " +:+ pretty count +:+ " ListKit entries into "
                     +:+ index_json docs))
          (World (<[file_of (index_json docs) := json_dumps p']> (files w))
                 (trace (log (EOpen (index_json lk) ModeR)
                           (log (EOpen (index_json docs) ModeR) w))
                  ++ [EOpen (index_json docs) ModeW]))),
     Ok tt).
Proof.
  intros Hp%json_load_at_ok Hs Hm Hlen.
  apply (json_load_at_ok (log (EOpen (index_json docs) ModeR) w)) in Hs.
  main_at_three. do 4 io_step. rewrite Hm. do 2 io_step. rewrite Hlen.
  by do 2 io_step.
Qed.

(** Every run with two arguments, on files: either no file has changed and
    the run raised, or both reads and the merge succeeded and the file the
    primary path names holds the merged document. *)
Lemma main_at_cases prog lk docs w w' r :
  py_main_at [prog; lk; docs] w = (w', r) ->
  (files w' = files w /\ exists e, r = Raise e) \/
  (exists p s p' items ids,
     loads_to json_loads (files w) (file_of (index_json docs)) p /\
     loads_to json_loads (files w) (file_of (index_json lk)) s /\
     merge_index p s = Ok (p', items, ids) /\
     files w' = <[file_of (index_json docs) := json_dumps p']> (files w)).
Proof.
  intros Hrun. revert Hrun. main_at_three.
  destruct (load_cases json_loads (files w) (file_of (index_json docs)))
    as [F1|[p Hp]].
  { destruct (json_load_at_fails w (index_json docs) F1) as (e & Hload).
    do 3 io_step. intros [= <- <-]. left. eauto. }
  apply json_load_at_ok in Hp as Hp'.
  destruct (load_cases json_loads (files w) (file_of (index_json lk)))
    as [F2|[s Hs]].
  { destruct (json_load_at_fails (log (EOpen (index_json docs) ModeR) w)
                (index_json lk) F2) as (e & Hload).
    do 4 io_step. intros [= <- <-]. left. eauto. }
  apply (json_load_at_ok (log (EOpen (index_json docs) ModeR) w)) in Hs as Hs'.
  do 4 io_step.
  destruct (merge_index p s) as [[[p' items] ids]|e] eqn:Hm.
  - do 2 io_step.
    destruct (py_len items) as [count|e] eqn:Hlen.
    + do 2 io_step. intros [= <- <-]. right. exists p, s, p', items, ids. done.
    + io_step. intros [= <- <-]. right. exists p, s, p', items, ids. done.
  - io_step. intros [= <- <-]. left. eauto.
Qed.



(** X12.  When the two index paths name different files, the secondary
    index file is as it was after the run.  When they name one file (the
    two arguments are spellings of one directory), a run that returns
    normally has merged that index with itself and overwritten it. *)
Theorem secondary_file_untouched_unless_aliased prog lk docs w w' r :
  py_main_at [prog; lk; docs] w = (w', r) ->
  (file_of (index_json lk) <> file_of (index_json docs) ->
   files w' !! file_of (index_json lk) = files w !! file_of (index_json lk)) /\
  (file_of (index_json lk) = file_of (index_json docs) -> r = Ok tt ->
   exists p p' items ids,
     loads_to json_loads (files w) (file_of (index_json lk)) p /\
     merge_index p p = Ok (p', items, ids) /\
     files w' !! file_of (index_json lk) = Some (json_dumps p')).
Proof.
  intros Hrun.
  destruct (main_at_cases prog lk docs w w' r Hrun)
    as [(Hf & e & ->)|(p & s & p' & items & ids & Hp & Hs & Hm & Hf)];
    rewrite Hf.
  - split; [done|]. by intros _ [=].
  - split.
    + intros Hne. by apply lookup_insert_ne.
    + intros Heq _. rewrite Heq in Hs |- *.
      rewrite (loads_to_unique _ _ _ _ Hs Hp) in Hm.
      exists p, p', items, ids. split_and!; [done|done|].
      apply lookup_insert_eq.
Qed.

(** X15.  Two runs in a row on documents with non-empty swift sequences,
    when the two index paths name different files and the codec reads back
    the document the first run wrote: both runs return normally and print
    the same two lines, the secondary file is as it was, and the primary
    file then holds a root whose children are the original ones followed
    by the secondary's top-level nodes twice, with the identifier list of
    the first run. *)
Theorem second_run_duplicates_on_disk
    prog lk docs w p s A B root rest y ys cs :
  file_of (index_json lk) <> file_of (index_json docs) ->
  loads_to json_loads (files w) (file_of (index_json docs)) p ->
  loads_to json_loads (files w) (file_of (index_json lk)) s ->
  doc_ids p = Some A -> doc_ids s = Some B ->
  doc_items p = Some (root :: rest) -> doc_items s = Some (y :: ys) ->
  node_children root = Some cs ->
  (forall p1 items ids,
     merge_index p s = Ok (p1, items, ids) ->
     json_loads (json_dumps p1) = Some p1) ->
  exists w1 w2 p2 root2 l1 l2,
    py_main_at [prog; lk; docs] w = (w1, Ok tt) /\
    py_main_at [prog; lk; docs] w1 = (w2, Ok tt) /\
    stdout w2 = stdout w ++ [l1; l2; l1; l2] /\
    files w2 !! file_of (index_json docs) = Some (json_dumps p2) /\
    files w2 !! file_of (index_json lk) = files w !! file_of (index_json lk) /\
    doc_ids p2 = Some (A ++ first_new A B) /\
    doc_items p2 = Some (root2 :: rest) /\
    node_children root2 = Some ((cs ++ y :: ys) ++ y :: ys).
Proof.
  intros Hfiles Hp Hs HA HB Hlp Hls Hcs Hcodec.
  destruct (merge_index_append p s A B HA HB root rest y ys cs Hlp Hls Hcs)
    as (p1 & root1 & Hm1 & Hid1 & Hitems1 & Hch1 & _).
  set (M := A ++ first_new A B) in *.
  destruct (merge_index_append p1 s M B (doc_ids_of_lookup _ _ Hid1) HB
              root1 rest y ys (cs ++ y :: ys) Hitems1 Hls Hch1)
    as (p2 & root2 & Hm2 & Hid2 & Hitems2 & Hch2 & _).
  rewrite first_new_covered, app_nil_r in Hm2, Hid2
    by (intros b Hb; by apply first_new_complete).
  pose proof (main_at_success prog lk docs w
                p s p1 (JArr (y :: ys)) (strs M) (length (y :: ys))
                Hp Hs Hm1 eq_refl) as Hrun1.
  set (w1 := fst (py_main_at [prog; lk; docs] w)).
  assert (files w1 = <[file_of (index_json docs) := json_dumps p1]> (files w))
    as Hf1 by (unfold w1; by rewrite Hrun1).
  assert (loads_to json_loads (files w1) (file_of (index_json docs)) p1)
    as Hp1.
  { exists (json_dumps p1). rewrite Hf1, lookup_insert_eq. eauto. }
  assert (loads_to json_loads (files w1) (file_of (index_json lk)) s) as Hs1.
  { destruct Hs as (text & Hf & Hl). exists text.
    by rewrite Hf1, lookup_insert_ne. }
  pose proof (main_at_success prog lk docs w1
                p1 s p2 (JArr (y :: ys)) (strs M) (length (y :: ys))
                Hp1 Hs1 Hm2 eq_refl) as Hrun2.
  set (w2 := fst (py_main_at [prog; lk; docs] w1)).
  assert (files w2 = <[file_of (index_json docs) := json_dumps p2]> (files w1))
    as Hf2 by (unfold w2; by rewrite Hrun2).
  eexists w1, w2, p2, root2, _, _. split_and!.
  - unfold w1. by rewrite Hrun1.
  - unfold w2. by rewrite Hrun2.
  - unfold w2. rewrite Hrun2. cbn [fst]. rewrite stdout_success.
    unfold w1. rewrite Hrun1. cbn [fst]. rewrite stdout_success.
    by rewrite <- app_assoc.
  - rewrite Hf2. apply lookup_insert_eq.
  - rewrite Hf2, lookup_insert_ne, Hf1 by done. by apply lookup_insert_ne.
  - by apply doc_ids_of_lookup.
  - done.
  - done.
Qed.

End Files.

(** With every path naming its own file, [main_at] is [main]. *)
Lemma main_at_identity json_loads json_dumps py_str sys_argv w :
  main_at (fun path => path) json_loads json_dumps py_str sys_argv w =
  main json_loads json_dumps py_str sys_argv w.
Proof. reflexivity. Qed.

(** ** The theorems over files on the sample hosts *)

(** The two arguments spell one directory: the run reads one file twice,
    merges it with itself and overwrites it. *)
Example one_directory_two_spellings :
  files (fst (main_at sample_file_of sample_loads sample_dumps sample_str
                alias_argv alias_world))
  = {["docs/index/index.json" := "merged"]}.
Proof. reflexivity. Qed.

Lemma report_follows_the_write_witness :
  stdout (fst (main sample_loads sample_dumps sample_str sample_argv
                 (sample_world "lists" "{ not json"))) = [].
Proof.
  destruct (report_follows_the_write sample_loads sample_dumps sample_str
              "merge-docs-index.py" "ListKit.doccarchive" "docs"
              (sample_world "lists" "{ not json")
              (fst (main sample_loads sample_dumps sample_str sample_argv
                      (sample_world "lists" "{ not json")))
              (snd (main sample_loads sample_dumps sample_str sample_argv
                      (sample_world "lists" "{ not json"))))
    as (evs & _ & _ & Hquiet & _); [reflexivity|].
  apply Hquiet. reflexivity.
Defined.

Lemma system_exit_only_on_usage_witness :
  length ["merge-docs-index.py"; "docs"] <> 3 /\
  opened (fst (main sample_loads sample_dumps sample_str
                 ["merge-docs-index.py"; "docs"]
                 (sample_world "lists" "listkit"))) = [] /\
  files (fst (main sample_loads sample_dumps sample_str
                ["merge-docs-index.py"; "docs"]
                (sample_world "lists" "listkit")))
    = files (sample_world "lists" "listkit").
Proof.
  destruct (system_exit_only_on_usage sample_loads sample_dumps sample_str
              ["merge-docs-index.py"; "docs"]
              (sample_world "lists" "listkit") 1)
    as (_ & Hlen & _ & Hopened & Hfiles); [reflexivity|].
  split_and!; [exact Hlen|exact Hopened|exact Hfiles].
Defined.


Lemma secondary_file_untouched_unless_aliased_witness :
  files (fst (main_at sample_file_of sample_loads sample_dumps sample_str
                sample_argv (sample_world "lists" "listkit")))
    !! "ListKit.doccarchive/index/index.json" = Some "listkit" /\
  exists p',
    merge_index lists_doc lists_doc = Ok p' /\
    files (fst (main_at sample_file_of sample_loads sample_dumps sample_str
                  alias_argv alias_world))
      !! "docs/index/index.json" = Some (sample_dumps (fst (fst p'))).
Proof.
  split.
  - etrans.
    + apply (secondary_file_untouched_unless_aliased sample_file_of
               sample_loads sample_dumps sample_str
               "merge-docs-index.py" "ListKit.doccarchive" "docs"
               (sample_world "lists" "listkit")
               (fst (main_at sample_file_of sample_loads sample_dumps
                       sample_str sample_argv
                       (sample_world "lists" "listkit")))
               (snd (main_at sample_file_of sample_loads sample_dumps
                       sample_str sample_argv
                       (sample_world "lists" "listkit"))));
        [reflexivity|discriminate].
    + reflexivity.
  - destruct (secondary_file_untouched_unless_aliased sample_file_of
                sample_loads sample_dumps sample_str
                "merge-docs-index.py" "./docs" "docs" alias_world
                (fst (main_at sample_file_of sample_loads sample_dumps
                        sample_str alias_argv alias_world))
                (snd (main_at sample_file_of sample_loads sample_dumps
                        sample_str alias_argv alias_world)))
      as [_ Halias]; [reflexivity|].
    destruct Halias as (p & p' & items & ids & Hp & Hm & Hf);
      [reflexivity|reflexivity|].
    destruct Hp as (tp & Htp & Hlp). vm_compute in Htp. injection Htp as <-.
    vm_compute in Hlp. injection Hlp as <-.
    exists (p', items, ids). split; [exact Hm|exact Hf].
Defined.

Lemma second_run_duplicates_on_disk_witness :
  exists w1 w2 p2 root2,
    main_at sample_file_of rerun_loads sample_dumps sample_str sample_argv
            (sample_world "lists" "listkit") = (w1, Ok tt) /\
    main_at sample_file_of rerun_loads sample_dumps sample_str sample_argv w1
      = (w2, Ok tt) /\
    files w2 !! "docs/index/index.json" = Some (sample_dumps p2) /\
    doc_items p2 = Some [root2] /\
    node_children root2 =
      Some [node "X" []; node "Y" []; node "Z" []; node "Y" []; node "Z" []].
Proof.
  destruct (second_run_duplicates_on_disk sample_file_of rerun_loads
              sample_dumps sample_str
              "merge-docs-index.py" "ListKit.doccarchive" "docs"
              (sample_world "lists" "listkit") lists_doc listkit_doc
              ["com.listkit.Lists"] ["com.listkit.ListKit"]
              (node "Lists" [node "X" []]) [] (node "Y" []) [node "Z" []]
              [node "X" []])
    as (w1 & w2 & p2 & root2 & l1 & l2 & H1 & H2 & _ & Hf & _ & _ & Hi & Hc);
    try reflexivity.
  - discriminate.
  - exists "lists". split; reflexivity.
  - exists "listkit". split; reflexivity.
  - intros p1 items ids H. vm_compute in H. injection H as <- _ _.
    reflexivity.
  - exists w1, w2, p2, root2. split_and!; assumption.
Defined.
